(** * GemmaTransformerDecoder: cache lifecycle, causal masking and output projection

    A shallow embedding of [torchtune/models/gemma/transformer.py].  The
    decoder object is a record, every method is a function from the object to
    the (possibly mutated) object and either a value or a raised exception.
    The decoder layers, the final normalisation and the floating-point
    arithmetic are collaborators of the class: they are taken as parameters
    (type classes), so every statement below holds for any implementation of
    them. *)

From Stdlib Require Import ZArith Lia String.
From stdpp Require Import base list gmap strings.

Local Open Scope string_scope.
Local Open Scope list_scope.

(** ** Exceptions and fallible computations *)

Inductive exn : Type :=
  | ValueError (msg : string)
  | IndexError (msg : string)
  | RuntimeError (msg : string)
  | TypeError (msg : string).

Inductive result (A : Type) : Type :=
  | Ok (a : A)
  | Raise (e : exn).
Arguments Ok {A} a.
Arguments Raise {A} e.

Definition result_bind {A B} (f : A -> result B) (r : result A) : result B :=
  match r with
  | Ok a => f a
  | Raise e => Raise e
  end.

#[global] Instance result_ret : MRet result := fun _ a => Ok a.
#[global] Instance result_mbind : MBind result := fun _ _ f r => result_bind f r.

Definition is_ok {A} (r : result A) : bool :=
  match r with Ok _ => true | Raise _ => false end.

(** [for x in xs: ys.append(f(x))], stopping at the first exception. *)
Fixpoint traverse {A B} (f : A -> result B) (xs : list A) : result (list B) :=
  match xs with
  | [] => Ok []
  | x :: xs' =>
      match f x with
      | Ok y =>
          match traverse f xs' with
          | Ok ys => Ok (y :: ys)
          | Raise e => Raise e
          end
      | Raise e => Raise e
      end
  end.

(** A method of an object of type [S]: it returns the object as the call left
    it (also when it raised) together with the outcome. *)
Definition method (S A : Type) : Type := S -> S * result A.

(** ** Tensors *)

Inductive dtype : Type := float16 | bfloat16 | float32 | float64.

#[global] Instance dtype_eq_dec : EqDecision dtype.
Proof. solve_decision. Defined.

(** The floating-point side of the tensor library.  A [scalar] is one stored
    element; the operations take the dtype they are computed in. *)
Class Numeric : Type := {
  scalar : Type;
  (** inner product of an input row with a weight row, as [F.linear] computes it *)
  dot : dtype -> list scalar -> list scalar -> scalar;
  (** elementwise product *)
  mul : dtype -> scalar -> scalar -> scalar;
  (** [torch.tensor(hidden_dim**0.5, dtype=dt)] *)
  sqrt_scale : dtype -> nat -> scalar;
  (** conversion of one element between dtypes *)
  cast : dtype -> dtype -> scalar -> scalar;
}.

(** [torch.ones(n, m, dtype=torch.bool)] *)
Definition ones (n m : nat) : list (list bool) := replicate n (replicate m true).

(** [torch.tril]: the entries above the main diagonal are zeroed. *)
Definition tril (M : list (list bool)) : list (list bool) :=
  imap (fun i row => imap (fun j x => if (j <=? i)%nat then x else false) row) M.

(** Integer index tensors ([input_pos]): the code comments on a 1-D tensor,
    the docstring on a [b x s] one. *)
Inductive Positions : Type :=
  | Pos1D (p : list Z)
  | Pos2D (p : list (list Z)).

(** Boolean attention masks: [b x s x s] from the caller, or what indexing the
    causal mask gives. *)
Inductive BoolTensor : Type :=
  | Bool3D (m : list (list (list bool)))
  | Bool4D (m : list (list (list (list bool)))).

(** One integer index into the first axis: negative indices count from the
    end, anything outside [-n, n) raises. *)
Definition index_row (cm : list (list bool)) (p : Z) : result (list bool) :=
  let n := Z.of_nat (length cm) in
  if ((p <? - n) || (n <=? p))%Z then
    Raise (IndexError "index out of bounds")
  else
    let i := if (p <? 0)%Z then (p + n)%Z else p in
    match cm !! Z.to_nat i with
    | Some row => Ok row
    | None => Raise (IndexError "index out of bounds")
    end.

(** [cm[None, input_pos]]: a new leading axis of size 1, then a gather of rows. *)
Definition getitem_None (cm : list (list bool)) (input_pos : Positions)
  : result BoolTensor :=
  match input_pos with
  | Pos1D ps => rows ← traverse (index_row cm) ps; Ok (Bool3D [rows])
  | Pos2D pss => rows ← traverse (traverse (index_row cm)) pss; Ok (Bool4D [rows])
  end.

Definition positions_flat (input_pos : Positions) : list Z :=
  match input_pos with
  | Pos1D ps => ps
  | Pos2D pss => concat pss
  end.

Definition mask_rows (m : BoolTensor) : list (list bool) :=
  match m with
  | Bool3D m => concat m
  | Bool4D m => concat (concat m)
  end.

(** Token ids, shape [b x s]. *)
Record Tokens : Type := mkTokens {
  tok_b : nat;
  tok_s : nat;
  tok_ids : list (list Z);
}.

Section Tensors.
Context `{Numeric}.

(** A 2-D floating tensor (the embedding weight, [vocab_size x embed_dim]). *)
Record Tensor2 : Type := mkTensor2 {
  dtype2 : dtype;
  rows2 : nat;
  cols2 : nat;
  data2 : list (list scalar);
}.

(** A 3-D floating tensor (hidden states and logits, [b x s x d]). *)
Record Tensor3 : Type := mkTensor3 {
  dtype3 : dtype;
  size0 : nat;
  size1 : nat;
  size2 : nat;
  data3 : list (list (list scalar));
}.

Definition shape3 (t : Tensor3) : nat * nat * nat := (size0 t, size1 t, size2 t).

Definition wf_tensor3 (t : Tensor3) : bool :=
  (length (data3 t) =? size0 t)%nat
  && forallb (fun b =>
       (length b =? size1 t)%nat
       && forallb (fun v => (length v =? size2 t)%nat) b) (data3 t).

(** [nn.Embedding.forward]: row lookup; an id outside the table raises. *)
Definition embedding_row (weight : Tensor2) (id : Z) : result (list scalar) :=
  if (id <? 0)%Z then Raise (IndexError "index out of range in self")
  else match data2 weight !! Z.to_nat id with
       | Some v => Ok v
       | None => Raise (IndexError "index out of range in self")
       end.

Definition embedding (weight : Tensor2) (tokens : Tokens) : result Tensor3 :=
  d ← traverse (traverse (embedding_row weight)) (tok_ids tokens);
  Ok {| dtype3 := dtype2 weight; size0 := tok_b tokens; size1 := tok_s tokens;
        size2 := cols2 weight; data3 := d |}.

(** [F.linear(input, weight)] without bias: every vector along the last axis
    is multiplied with the transposed weight.  Mismatched dtypes or inner
    dimensions raise. *)
Definition linear (input : Tensor3) (weight : Tensor2) : result Tensor3 :=
  if negb (bool_decide (dtype3 input = dtype2 weight)) then
    Raise (RuntimeError "expected m1 and m2 to have the same dtype")
  else if negb (size2 input =? cols2 weight)%nat then
    Raise (RuntimeError "mat1 and mat2 shapes cannot be multiplied")
  else
    Ok {| dtype3 := dtype3 input; size0 := size0 input; size1 := size1 input;
          size2 := rows2 weight;
          data3 := map (map (fun v => map (dot (dtype3 input) v) (data2 weight)))
                       (data3 input) |}.

(** [t.float()] *)
Definition float (t : Tensor3) : Tensor3 :=
  if bool_decide (dtype3 t = float32) then t
  else {| dtype3 := float32; size0 := size0 t; size1 := size1 t; size2 := size2 t;
          data3 := map (map (map (cast (dtype3 t) float32))) (data3 t) |}.

(** [h * torch.tensor(c, dtype=h.dtype)] *)
Definition mul_scalar (h : Tensor3) (c : scalar) : Tensor3 :=
  {| dtype3 := dtype3 h; size0 := size0 h; size1 := size1 h; size2 := size2 h;
     data3 := map (map (map (fun x => mul (dtype3 h) x c))) (data3 h) |}.

(** [t.narrow(1, start, len)] *)
Definition narrow1 (t : Tensor3) (start len : nat) : Tensor3 :=
  {| dtype3 := dtype3 t; size0 := size0 t; size1 := len; size2 := size2 t;
     data3 := map (fun b => take len (drop start b)) (data3 t) |}.

(** [t.split(split_size, dim=1)]: pieces of [split_size], the last one holds
    what is left; at least one piece is returned. *)
Definition split1 (t : Tensor3) (split_size : nat) : result (list Tensor3) :=
  let dim_size := size1 t in
  if (split_size =? 0)%nat && negb (dim_size =? 0)%nat then
    Raise (RuntimeError "split expects split_size be non-negative")
  else
    let num_splits :=
      if (split_size =? 0)%nat then 1%nat
      else Nat.max ((dim_size + split_size - 1) / split_size) 1 in
    let last_split_size := (split_size - (split_size * num_splits - dim_size))%nat in
    Ok (map (fun i =>
               narrow1 t (i * split_size)
                       (if (i <? num_splits - 1)%nat then split_size
                        else last_split_size))
            (seq 0 num_splits)).

(** [t.chunk(chunks, dim=1)]: pieces of [ceil(size / chunks)]; an empty axis
    gives [chunks] empty pieces. *)
Definition chunk1 (t : Tensor3) (chunks : Z) : result (list Tensor3) :=
  if (chunks <=? 0)%Z then
    Raise (RuntimeError "chunk expects `chunks` to be greater than 0")
  else
    let chunks := Z.to_nat chunks in
    let dim_size := size1 t in
    let split_size := ((dim_size + chunks - 1) / chunks)%nat in
    if (split_size =? 0)%nat && (dim_size =? 0)%nat then
      Ok (replicate chunks (narrow1 t 0 0))
    else
      split1 t split_size.

(** The pieces (start, length) that [chunk] cuts an axis of size [s] into when
    asked for [c] chunks. *)
Definition chunk_pieces (s c : nat) : list (nat * nat) :=
  let k := ((s + c - 1) / c)%nat in
  if (k =? 0)%nat then replicate c (0, 0)%nat
  else
    let n := Nat.max ((s + k - 1) / k) 1 in
    map (fun i => (i * k, if (i <? n - 1)%nat then k else k - (k * n - s))%nat)
        (seq 0 n).

(** [torch.cat(ts, dim=1)] of tensors that agree on dtype and on the other
    axes. *)
Definition cat1 (ts : list Tensor3) : result Tensor3 :=
  match ts with
  | [] => Raise (RuntimeError "torch.cat(): expected a non-empty list of Tensors")
  | t :: _ =>
      if forallb (fun u => bool_decide (dtype3 u = dtype3 t)
                           && (size0 u =? size0 t)%nat && (size2 u =? size2 t)%nat) ts
      then
        Ok {| dtype3 := dtype3 t; size0 := size0 t;
              size1 := sum_list (map size1 ts); size2 := size2 t;
              data3 := map (fun b => concat (map (fun u => default [] (data3 u !! b)) ts))
                           (seq 0 (size0 t)) |}
      else Raise (RuntimeError "Sizes of tensors must match except in dimension 1")
  end.

End Tensors.

(** ** Methods: a state and exception monad *)

#[global] Instance method_ret {S} : MRet (method S) := fun _ a s => (s, Ok a).
#[global] Instance method_mbind {S} : MBind (method S) :=
  fun _ _ f m s =>
    match m s with
    | (s', Ok a) => f a s'
    | (s', Raise e) => (s', Raise e)
    end.

Definition get {S} : method S S := fun s => (s, Ok s).
Definition raise {S A} (e : exn) : method S A := fun s => (s, Raise e).
Definition lift {S A} (r : result A) : method S A := fun s => (s, r).
Definition modify {S} (f : S -> S) : method S unit := fun s => (f s, Ok tt).

(** ** The decoder layer interface *)

(** What the decoder uses of [TransformerSelfAttentionLayer]: the
    [cache_enabled] attribute, [setup_caches] and the call itself.  A layer
    owns its key/value cache, so both calls return the layer as they left it. *)
Class Layer `{Numeric} : Type := {
  layer_state : Type;
  cache_enabled : layer_state -> bool;
  layer_setup_caches :
    Z -> dtype -> option Z -> option Z -> method layer_state unit;
  layer_forward :
    Tensor3 -> option BoolTensor -> option Positions -> method layer_state Tensor3;
}.

(** Modelled from the spec: the contract of the decoder layer, whose class
    ([torchtune.modules.transformer]) is not part of the sources at hand.
    Setting up the cache of a layer enables it, the forward call of a layer
    leaves the flag alone, and it returns a hidden state of the shape it was
    given. *)
Class LayerContract `{Layer} : Prop := {
  setup_enables_cache :
    forall b dt enc dec l l',
      layer_setup_caches b dt enc dec l = (l', Ok tt) -> cache_enabled l' = true;
  forward_keeps_cache_enabled :
    forall h m p l, cache_enabled (fst (layer_forward h m p l)) = cache_enabled l;
  forward_keeps_shape :
    forall h m p l l' h',
      layer_forward h m p l = (l', Ok h') -> shape3 h' = shape3 h;
}.

(** Modelled from the spec: the final normalisation, a module handed to the
    constructor, is any shape-preserving operation on the hidden state. *)
Definition shape_preserving `{Numeric} (nrm : Tensor3 -> result Tensor3) : Prop :=
  forall h h', nrm h = Ok h' -> shape3 h' = shape3 h.

Section Decoder.
Context `{Layer}.

(** [for layer in self.layers: a = body(a, layer)]: the layers before the
    failing one keep their new state, the ones after it are not touched. *)
Fixpoint for_layers {A} (body : A -> method layer_state A) (a : A)
  : method (list layer_state) A :=
  fun ls =>
    match ls with
    | [] => ([], Ok a)
    | l :: rest =>
        match body a l with
        | (l', Ok a') =>
            let '(rest', r) := for_layers body a' rest in (l' :: rest', r)
        | (l', Raise e) => (l' :: rest, Raise e)
        end
    end.

Record GemmaTransformerDecoder : Type := mkDecoder {
  tok_embeddings : Tensor2;
  layers : list layer_state;
  norm : Tensor3 -> result Tensor3;
  max_seq_len : Z;
  num_heads : Z;
  head_dim : Z;
  causal_mask : option (list (list bool));
  norm_embeddings : bool;
  num_output_chunks : Z;
  encoder_max_seq_len : option Z;
  decoder_max_seq_len : option Z;
}.

Definition set_layers (ls : list layer_state) (self : GemmaTransformerDecoder) :=
  {| tok_embeddings := tok_embeddings self; layers := ls; norm := norm self;
     max_seq_len := max_seq_len self; num_heads := num_heads self;
     head_dim := head_dim self; causal_mask := causal_mask self;
     norm_embeddings := norm_embeddings self;
     num_output_chunks := num_output_chunks self;
     encoder_max_seq_len := encoder_max_seq_len self;
     decoder_max_seq_len := decoder_max_seq_len self |}.

Definition set_causal_mask (m : option (list (list bool)))
  (self : GemmaTransformerDecoder) :=
  {| tok_embeddings := tok_embeddings self; layers := layers self; norm := norm self;
     max_seq_len := max_seq_len self; num_heads := num_heads self;
     head_dim := head_dim self; causal_mask := m;
     norm_embeddings := norm_embeddings self;
     num_output_chunks := num_output_chunks self;
     encoder_max_seq_len := encoder_max_seq_len self;
     decoder_max_seq_len := decoder_max_seq_len self |}.

Definition set_output_chunks (n : Z) (self : GemmaTransformerDecoder) :=
  {| tok_embeddings := tok_embeddings self; layers := layers self; norm := norm self;
     max_seq_len := max_seq_len self; num_heads := num_heads self;
     head_dim := head_dim self; causal_mask := causal_mask self;
     norm_embeddings := norm_embeddings self;
     num_output_chunks := n;
     encoder_max_seq_len := encoder_max_seq_len self;
     decoder_max_seq_len := decoder_max_seq_len self |}.

Definition set_encoder_max_seq_len (n : Z) (self : GemmaTransformerDecoder) :=
  {| tok_embeddings := tok_embeddings self; layers := layers self; norm := norm self;
     max_seq_len := max_seq_len self; num_heads := num_heads self;
     head_dim := head_dim self; causal_mask := causal_mask self;
     norm_embeddings := norm_embeddings self;
     num_output_chunks := num_output_chunks self;
     encoder_max_seq_len := Some n;
     decoder_max_seq_len := decoder_max_seq_len self |}.

Definition set_decoder_max_seq_len (n : Z) (self : GemmaTransformerDecoder) :=
  {| tok_embeddings := tok_embeddings self; layers := layers self; norm := norm self;
     max_seq_len := max_seq_len self; num_heads := num_heads self;
     head_dim := head_dim self; causal_mask := causal_mask self;
     norm_embeddings := norm_embeddings self;
     num_output_chunks := num_output_chunks self;
     encoder_max_seq_len := encoder_max_seq_len self;
     decoder_max_seq_len := Some n |}.

(** Run a loop over [self.layers] inside a method of the decoder. *)
Definition on_layers {A} (m : method (list layer_state) A)
  : method GemmaTransformerDecoder A :=
  fun self => let '(ls, r) := m (layers self) in (set_layers ls self, r).

(** [_get_clones(layer, n)]: [n] deep copies of the layer. *)
Definition _get_clones (layer : layer_state) (n : Z) : list layer_state :=
  replicate (Z.to_nat n) layer.

(** [__init__] *)
Definition init (tok_embeddings : Tensor2) (layer : layer_state) (num_layers : Z)
  (max_seq_len num_heads head_dim : Z) (norm : Tensor3 -> result Tensor3)
  (norm_embeddings : bool) : GemmaTransformerDecoder :=
  {| tok_embeddings := tok_embeddings;
     layers := _get_clones layer num_layers;
     norm := norm;
     max_seq_len := max_seq_len;
     num_heads := num_heads;
     head_dim := head_dim;
     causal_mask := None;
     norm_embeddings := norm_embeddings;
     num_output_chunks := 0;
     encoder_max_seq_len := None;
     decoder_max_seq_len := None |}.

(** [self.layers[0].cache_enabled] *)
Definition caches_are_setup : method GemmaTransformerDecoder bool :=
  self ← get;
  match layers self with
  | layer0 :: _ => mret (cache_enabled layer0)
  | [] => raise (IndexError "index 0 is out of range")
  end.

Definition set_num_output_chunks (num_output_chunks : Z)
  : method GemmaTransformerDecoder unit :=
  modify (set_output_chunks num_output_chunks).

(** [torch.tril(torch.ones(n, n, dtype=torch.bool))]; a negative size raises. *)
Definition build_causal_mask (n : Z) : result (list (list bool)) :=
  if (n <? 0)%Z then
    Raise (RuntimeError "Trying to create tensor with negative dimension")
  else Ok (tril (ones (Z.to_nat n) (Z.to_nat n))).

Definition setup_caches (batch_size : Z) (dt : dtype)
  (encoder_max_seq_len decoder_max_seq_len : option Z)
  : method GemmaTransformerDecoder unit :=
  _ ← match encoder_max_seq_len with
       | Some n => modify (set_encoder_max_seq_len n)
       | None => mret tt
       end;
  _ ← match decoder_max_seq_len with
       | Some n => modify (set_decoder_max_seq_len n)
       | None => mret tt
       end;
  _ ← on_layers
        (for_layers
           (fun _ => layer_setup_caches batch_size dt
                       encoder_max_seq_len decoder_max_seq_len) tt);
  self ← get;
  m ← lift (build_causal_mask (max_seq_len self));
  modify (set_causal_mask (Some m)).

(** [chunked_output] *)
Definition chunked_output (last_hidden_state : Tensor3)
  : method GemmaTransformerDecoder (list Tensor3) :=
  self ← get;
  chunks ← lift (chunk1 last_hidden_state (num_output_chunks self));
  lift (traverse (fun chunk => linear chunk (tok_embeddings self)) chunks).

(** [forward] returns one tensor, or the list of chunks. *)
Inductive Output : Type :=
  | Logits (t : Tensor3)
  | ChunkedLogits (ts : list Tensor3).

Definition missing_input_pos : string :=
  "Caches are setup, but the position of input token is missing".
Definition mask_was_set : string :=
  "An attention mask was set. Cannot use a non-causal mask for inference".

(** The [if self.causal_mask is not None] block of [forward]: the mask that
    the layers are given. *)
Definition resolve_mask (mask : option BoolTensor) (input_pos : option Positions)
  : method GemmaTransformerDecoder (option BoolTensor) :=
  self ← get;
  match causal_mask self with
  | Some cm =>
      match input_pos with
      | None => raise (ValueError missing_input_pos)
      | Some pos =>
          match mask with
          | Some _ => raise (ValueError mask_was_set)
          | None => m ← lift (getitem_None cm pos); mret (Some m)
          end
      end
  | None => mret mask
  end.

(** The output projection at the end of [forward]. *)
Definition project (h : Tensor3) : method GemmaTransformerDecoder Output :=
  self ← get;
  if (0 <? num_output_chunks self)%Z then
    output ← chunked_output h; mret (ChunkedLogits output)
  else
    output ← lift (linear h (tok_embeddings self)); mret (Logits (float output)).

(** The embedding scale, the loop over the layers and the final
    normalisation: every layer is called with the same [mask] and
    [input_pos]. *)
Definition run_layers (h : Tensor3) (mask : option BoolTensor)
  (input_pos : option Positions) : method GemmaTransformerDecoder Tensor3 :=
  self ← get;
  let h :=
    if norm_embeddings self
    then mul_scalar h (sqrt_scale (dtype3 h) (size2 h))
    else h in
  h ← on_layers (for_layers (fun h => layer_forward h mask input_pos) h);
  self ← get;
  lift (norm self h).

(** [forward] up to and including [h = self.norm(h)]. *)
Definition final_hidden_state (tokens : Tokens) (mask : option BoolTensor)
  (input_pos : option Positions) : method GemmaTransformerDecoder Tensor3 :=
  self ← get;
  h ← lift (embedding (tok_embeddings self) tokens);
  mask ← resolve_mask mask input_pos;
  run_layers h mask input_pos.

Definition forward (tokens : Tokens) (mask : option BoolTensor)
  (input_pos : option Positions) : method GemmaTransformerDecoder Output :=
  h ← final_hidden_state tokens mask input_pos;
  project h.

(** ** Public operations and the states they reach *)

Inductive Call : Type :=
  | call_caches_are_setup
  | call_set_num_output_chunks (num_output_chunks : Z)
  | call_setup_caches (batch_size : Z) (dt : dtype) (enc dec : option Z)
  | call_chunked_output (last_hidden_state : Tensor3)
  | call_forward (tokens : Tokens) (mask : option BoolTensor)
      (input_pos : option Positions).

(** The object after the call and whether the call returned normally. *)
Definition run_call (c : Call) (self : GemmaTransformerDecoder)
  : GemmaTransformerDecoder * bool :=
  match c with
  | call_caches_are_setup =>
      let '(self', r) := caches_are_setup self in (self', is_ok r)
  | call_set_num_output_chunks n =>
      let '(self', r) := set_num_output_chunks n self in (self', is_ok r)
  | call_setup_caches b dt enc dec =>
      let '(self', r) := setup_caches b dt enc dec self in (self', is_ok r)
  | call_chunked_output h =>
      let '(self', r) := chunked_output h self in (self', is_ok r)
  | call_forward tokens mask input_pos =>
      let '(self', r) := forward tokens mask input_pos self in (self', is_ok r)
  end.

Definition run_calls (cs : list Call) (self : GemmaTransformerDecoder)
  : GemmaTransformerDecoder :=
  fold_left (fun self c => fst (run_call c self)) cs self.




(** The lower triangle: row [i] holds [true] exactly in the columns [0..i]. *)
Definition lower_triangular (n : nat) (M : list (list bool)) : Prop :=
  length M = n /\
  forall i, (i < n)%nat ->
    exists row, M !! i = Some row /\ length row = n /\
      (forall j, (j < n)%nat -> row !! j = Some (bool_decide (j <= i)%nat)).

(** The stored mask is the one [setup_caches] builds for [max_seq_len]. *)
Definition mask_built (self : GemmaTransformerDecoder) : Prop :=
  causal_mask self =
    Some (tril (ones (Z.to_nat (max_seq_len self)) (Z.to_nat (max_seq_len self)))).



End Decoder.

(** ** A concrete decoder

    Integer arithmetic for the numeric side, and a layer that returns the
    hidden state as it came and keeps a record of every mask and position
    tensor it was called with (its "cache"). *)

Module Scenario.

Definition ZNumeric : Numeric :=
  {| scalar := Z;
     dot := fun _ v w => fold_right Z.add 0%Z (zip_with Z.mul v w);
     mul := fun _ x y => (x * y)%Z;
     sqrt_scale := fun _ n => Z.sqrt (Z.of_nat n);
     cast := fun _ _ x => x |}.
#[export] Existing Instance ZNumeric.

Record recorder : Type := mkRecorder {
  rec_enabled : bool;
  rec_calls : list (option BoolTensor * option Positions);
}.

(** Like the key/value cache of the library, the recorder cannot be set up
    without a decoder length. *)
Definition recorder_setup (batch_size : Z) (dt : dtype) (enc dec : option Z)
  : method recorder unit :=
  fun l =>
    match dec with
    | Some _ => ({| rec_enabled := true; rec_calls := [] |}, Ok tt)
    | None => (l, Raise (TypeError "decoder_max_seq_len is None"))
    end.

Definition recorder_forward (h : Tensor3) (mask : option BoolTensor)
  (input_pos : option Positions) : method recorder Tensor3 :=
  fun l =>
    ({| rec_enabled := rec_enabled l; rec_calls := rec_calls l ++ [(mask, input_pos)] |},
     Ok h).

Definition RecorderLayer : Layer :=
  {| layer_state := recorder;
     cache_enabled := rec_enabled;
     layer_setup_caches := recorder_setup;
     layer_forward := recorder_forward |}.
#[export] Existing Instance RecorderLayer.

Definition fresh_layer : recorder := {| rec_enabled := false; rec_calls := [] |}.

(** A weight of shape [vocab x d]; entry [(i, j)] is [i + j]. *)
Definition weight (dt : dtype) (vocab d : nat) : Tensor2 :=
  {| dtype2 := dt; rows2 := vocab; cols2 := d;
     data2 := map (fun i => map (fun j => Z.of_nat (i + j)) (seq 0 d)) (seq 0 vocab) |}.

Definition identity_norm (h : Tensor3) : result Tensor3 := Ok h.

(** A small decoder: vocab_size = 6, embed_dim = 2, num_layers = 2,
    max_seq_len = 16. *)
Definition fresh (dt : dtype) : GemmaTransformerDecoder :=
  init (weight dt 6 2) fresh_layer 2 16 4 2 identity_norm false.

(** After [setup_caches(batch_size=1, dtype=float32, decoder_max_seq_len=16)]. *)
Definition cached (dt : dtype) : GemmaTransformerDecoder :=
  fst (setup_caches 1 float32 None (Some 16%Z) (fresh dt)).

Definition chunked (dt : dtype) (n : Z) : GemmaTransformerDecoder :=
  fst (set_num_output_chunks n (fresh dt)).

(** The decoder of the scenario in the specification: embed_dim = 8,
    vocab_size = 100, num_layers = 2, max_seq_len = 16, caches set up. *)
Definition spec_decoder : GemmaTransformerDecoder :=
  fst (setup_caches 1 float32 None (Some 16%Z)
         (init (weight bfloat16 100 8) fresh_layer 2 16 4 2 identity_norm false)).

Definition tokens_1x1 : Tokens := {| tok_b := 1; tok_s := 1; tok_ids := [[5%Z]] |}.
Definition tokens_1x5 : Tokens :=
  {| tok_b := 1; tok_s := 5; tok_ids := [[1; 2; 3; 4; 5]%Z] |}.

Definition some_mask : BoolTensor := Bool3D [[[true]]].

(** A hidden state of shape [1 x 12 x 2]. *)
Definition hidden_1x12 (dt : dtype) : Tensor3 :=
  {| dtype3 := dt; size0 := 1; size1 := 12; size2 := 2;
     data3 := [map (fun i => map (fun j => Z.of_nat (i * j + 1)) (seq 0 2)) (seq 0 12)] |}.

(** What came back from [forward], reduced to shapes and dtypes. *)
Definition output_summary (r : result Output)
  : option (list (nat * nat * nat * dtype)) :=
  match r with
  | Ok (Logits t) => Some [(shape3 t, dtype3 t)]
  | Ok (ChunkedLogits ts) => Some (map (fun t => (shape3 t, dtype3 t)) ts)
  | Raise _ => None
  end.

End Scenario.

(** ** More of the decoder *)

Section Scaling.
Context `{Layer}.

(** The hidden state the first layer is given: the embeddings, multiplied by
    [sqrt(hidden_dim)] in their own dtype when [norm_embeddings] is set. *)
Definition scale_embeddings (self : GemmaTransformerDecoder) (h : Tensor3) : Tensor3 :=
  if norm_embeddings self
  then mul_scalar h (sqrt_scale (dtype3 h) (size2 h))
  else h.

(** What it is for the layers [ls] to have been called, in order, each with
    [mask] and [input_pos] and with the hidden state that the layer before it
    returned ([h] for the first): [ls'] are the layers as the calls left them
    and [r] is the outcome, the hidden state of the last layer or the
    exception of the first layer that raised, after which no layer was
    called. *)
Inductive layers_called_with (mask : option BoolTensor) (input_pos : option Positions)
  : Tensor3 -> list layer_state -> list layer_state -> result Tensor3 -> Prop :=
  | called_none h :
      layers_called_with mask input_pos h [] [] (Ok h)
  | called_next h l l' h' ls ls' r :
      layer_forward h mask input_pos l = (l', Ok h') ->
      layers_called_with mask input_pos h' ls ls' r ->
      layers_called_with mask input_pos h (l :: ls) (l' :: ls') r
  | called_raise h l l' e ls :
      layer_forward h mask input_pos l = (l', Raise e) ->
      layers_called_with mask input_pos h (l :: ls) (l' :: ls) (Raise e).

(** The rest of [forward] once the loop over the layers has ended with [r]
    and left the layers [ls]. *)
Definition after_layers (ls : list layer_state) (r : result Tensor3)
  : method GemmaTransformerDecoder Output :=
  fun self =>
    match r with
    | Ok h =>
        match norm self h with
        | Ok h' => project h' (set_layers ls self)
        | Raise e => (set_layers ls self, Raise e)
        end
    | Raise e => (set_layers ls self, Raise e)
    end.

End Scaling.

(** A layer with a cache of a fixed number of slots: every call of an enabled
    layer takes one, and a call on a full cache raises. *)
Module Bounded.

Record slots : Type := mkSlots {
  slots_enabled : bool;
  slots_capacity : nat;
  slots_used : nat;
}.

Definition slots_setup (batch_size : Z) (dt : dtype) (enc dec : option Z)
  : method slots unit :=
  fun l =>
    match dec with
    | Some d =>
        if (d <? 0)%Z
        then (l, Raise (RuntimeError "Trying to create tensor with negative dimension"))
        else ({| slots_enabled := true; slots_capacity := Z.to_nat d; slots_used := 0 |},
              Ok tt)
    | None => (l, Raise (TypeError "decoder_max_seq_len is None"))
    end.

Definition slots_forward `{Numeric} (h : Tensor3) (mask : option BoolTensor)
  (input_pos : option Positions) : method slots Tensor3 :=
  fun l =>
    if slots_enabled l then
      if (slots_capacity l <=? slots_used l)%nat
      then (l, Raise (RuntimeError "cache is full"))
      else ({| slots_enabled := true; slots_capacity := slots_capacity l;
               slots_used := S (slots_used l) |}, Ok h)
    else (l, Ok h).

Definition SlotsLayer : @Layer Scenario.ZNumeric :=
  {| layer_state := slots;
     cache_enabled := slots_enabled;
     layer_setup_caches := slots_setup;
     layer_forward := slots_forward |}.

(** An enabled layer with two free slots, the same after one call, and an
    enabled layer whose only slot is taken. *)
Definition roomy : @layer_state _ SlotsLayer := mkSlots true 2 0.
Definition roomy_used : @layer_state _ SlotsLayer := mkSlots true 2 1.
Definition full : @layer_state _ SlotsLayer := mkSlots true 1 1.

(** Three layers, the second with a full cache; no causal mask. *)
Definition second_layer_full : @GemmaTransformerDecoder Scenario.ZNumeric SlotsLayer :=
  {| tok_embeddings := Scenario.weight float32 6 2;
     layers := [roomy; full; roomy];
     norm := Scenario.identity_norm;
     max_seq_len := 16; num_heads := 4; head_dim := 2;
     causal_mask := None; norm_embeddings := true; num_output_chunks := 0;
     encoder_max_seq_len := None; decoder_max_seq_len := None |}.

End Bounded.

(** Inputs at the edges of what the decoder accepts. *)
Module Edge.
Import Scenario.

(** A token id outside a table of 6 rows. *)
Definition tokens_unknown : Tokens := {| tok_b := 1; tok_s := 1; tok_ids := [[9%Z]] |}.

(** A hidden state of shape [1 x 5 x 2]. *)
Definition hidden_1x5 (dt : dtype) : Tensor3 :=
  {| dtype3 := dt; size0 := 1; size1 := 5; size2 := 2;
     data3 := [map (fun i => map (fun j => Z.of_nat (i + 2 * j)) (seq 0 2)) (seq 0 5)] |}.

(** A decoder built with a negative [max_seq_len]. *)
Definition negative_length : GemmaTransformerDecoder :=
  init (weight float32 6 2) fresh_layer 2 (-1) 4 2 identity_norm false.

(** A decoder built with no layer. *)
Definition no_layers : GemmaTransformerDecoder :=
  init (weight float32 6 2) fresh_layer 0 16 4 2 identity_norm false.

End Edge.

(** ** torchtune/training/_compile.py

    The modules are objects on a heap, a model is known by the ids of
    [list(model.modules())].  [torch.compile] builds a new callable each time
    it is called (they are numbered in the order they are built), and
    [m.compile(backend=...)] stores the one it gets on the module, in the
    place of the one before. *)

Module Compile.

Inductive module_class : Type :=
  | TransformerSelfAttentionLayer
  | TransformerCrossAttentionLayer
  | OtherModule (name : string).

(** What [torch.compile(f, backend=...)] returns. *)
Record compiled_callable : Type := mkCompiled {
  callable_backend : string;
  callable_serial : nat;
}.

Record nn_module : Type := mkModule {
  class_of : module_class;
  compiled_call_impl : option compiled_callable;
}.

Inductive model : Type :=
  | TransformerDecoder (modules : list nat)
  | DeepFusionModel (modules : list nat) (decoder : model).

(** [list(model.modules())] *)
Definition modules (m : model) : list nat :=
  match m with
  | TransformerDecoder ms => ms
  | DeepFusionModel ms _ => ms
  end.

Record world : Type := mkWorld {
  environ : gmap string string;
  heap : gmap nat nn_module;
  log : list string;
  (** the number of callables that [torch.compile] has built so far *)
  compiled_count : nat;
}.

(** [log.info(msg)] *)
Definition log_info (msg : string) (w : world) : world :=
  {| environ := environ w; heap := heap w; log := log w ++ [msg];
     compiled_count := compiled_count w |}.

(** [isinstance(m, TransformerSelfAttentionLayer) or
    isinstance(m, TransformerCrossAttentionLayer)] *)
Definition is_attention_layer (m : nn_module) : bool :=
  match class_of m with
  | TransformerSelfAttentionLayer | TransformerCrossAttentionLayer => true
  | OtherModule _ => false
  end.

(** [m.compile(backend=backend)], for the module [m] with the id [id]:
    [m._compiled_call_impl = torch.compile(m._call_impl, backend=backend)]. *)
Definition compile (backend : string) (id : nat) (m : nn_module) (w : world) : world :=
  {| environ := environ w;
     heap := <[id := {| class_of := class_of m;
                        compiled_call_impl :=
                          Some (mkCompiled backend (compiled_count w)) |}]> (heap w);
     log := log w;
     compiled_count := S (compiled_count w) |}.

(** [os.environ.get("TORCH_COMPILE_BACKEND", "inductor")] *)
Definition get_backend (w : world) : string :=
  default "inductor" (environ w !! "TORCH_COMPILE_BACKEND").

Definition compiling_layers : string :=
  "Compiling model layers with torch.compile. Expect a relatively slower first step.".

(** One turn of the loop over the modules. *)
Definition compile_if_attention (backend : string) (w : world) (id : nat) : world :=
  match heap w !! id with
  | Some m => if is_attention_layer m then compile backend id m w else w
  | None => w
  end.

Definition compile_model (m : model) (verbose : bool) (w : world) : world :=
  let backend := get_backend w in
  let m := match m with
           | DeepFusionModel _ decoder => decoder
           | TransformerDecoder _ => m
           end in
  let w := if verbose then log_info compiling_layers w else w in
  foldl (compile_if_attention backend) w (reverse (modules m)).

(** The model whose modules are visited. *)
Definition compiled_part (m : model) : model :=
  match m with
  | DeepFusionModel _ decoder => decoder
  | TransformerDecoder _ => m
  end.

(** What the loop over the ids [ids], started in [w], has made of the module
    [id] when it ends in [w']: an attention layer among [ids] has a callable
    for [backend] that was built during the loop, any other module is what it
    was. *)
Definition compiled_by_loop (backend : string) (ids : list nat) (w w' : world)
  (id : nat) : Prop :=
  match heap w !! id with
  | Some o =>
      if bool_decide (id ∈ ids) && is_attention_layer o
      then exists k,
             heap w' !! id
               = Some {| class_of := class_of o;
                         compiled_call_impl := Some (mkCompiled backend k) |} /\
             (compiled_count w <= k < compiled_count w')%nat
      else heap w' !! id = Some o
  | None => heap w' !! id = None
  end.

(** A fusion model: the decoder (ids 1..4, two attention layers) and an
    encoder (ids 5..6, one attention layer, compiled before). *)
Definition fusion_heap : gmap nat nn_module :=
  list_to_map
    [(0, mkModule (OtherModule "DeepFusionModel") None);
     (1, mkModule (OtherModule "TransformerDecoder") None);
     (2, mkModule TransformerSelfAttentionLayer None);
     (3, mkModule (OtherModule "FusionLayer") None);
     (4, mkModule TransformerCrossAttentionLayer None);
     (5, mkModule (OtherModule "Encoder") None);
     (6, mkModule TransformerSelfAttentionLayer (Some (mkCompiled "eager" 0)))]%nat.

Definition fusion_model : model :=
  DeepFusionModel [0; 1; 2; 3; 4; 5; 6]%nat (TransformerDecoder [1; 2; 3; 4]%nat).

Definition fusion_world : world :=
  {| environ := {[ "TORCH_COMPILE_BACKEND" := "aot_eager" ]};
     heap := fusion_heap; log := []; compiled_count := 1 |}.

End Compile.

(** * Properties *)

(** ** Lists, results and loops *)

Lemma traverse_total {A B} (f : A -> result B) (g : A -> B) xs :
  Forall (fun x => f x = Ok (g x)) xs -> traverse f xs = Ok (map g xs).
Proof.
  induction 1 as [|x xs Hx _ IH]; simpl; [done |].
  by rewrite Hx, IH.
Qed.

Lemma Forall2_with_l {A B} (P : A -> Prop) (R : A -> B -> Prop) xs ys :
  Forall P xs -> Forall2 R xs ys -> Forall2 (fun x y => P x /\ R x y) xs ys.
Proof.
  intros HP HR. induction HR as [|x y xs ys Hxy _ IH]; [constructor |].
  inversion HP; subst. constructor; [done | by apply IH].
Qed.

Lemma tril_ones_lower_triangular n : lower_triangular n (tril (ones n n)).
Proof.
  unfold lower_triangular, tril, ones. split.
  - by rewrite length_imap, length_replicate.
  - intros i Hi. eexists. split; [| split].
    + rewrite list_lookup_imap, lookup_replicate_2 by done. reflexivity.
    + by rewrite length_imap, length_replicate.
    + intros j Hj. rewrite list_lookup_imap, lookup_replicate_2 by done.
      simpl. f_equal.
      destruct (Nat.leb_spec j i).
      * by rewrite bool_decide_eq_true_2.
      * rewrite bool_decide_eq_false_2; [done | lia].
Qed.

Lemma index_row_in_range (cm : list (list bool)) (p : Z) row :
  (0 <= p)%Z -> cm !! Z.to_nat p = Some row -> index_row cm p = Ok row.
Proof.
  intros Hp Hrow. unfold index_row.
  pose proof (lookup_lt_Some _ _ _ Hrow) as Hlt.
  destruct (Z.ltb_spec p (- Z.of_nat (length cm))); [lia |].
  destruct (Z.leb_spec (Z.of_nat (length cm)) p); [lia |]. simpl.
  destruct (Z.ltb_spec p 0); [lia |]. by rewrite Hrow.
Qed.

(** Unfold the monadic plumbing of a method body. *)
Ltac run_method :=
  unfold mbind, method_mbind, mret, method_ret, get, raise, lift, modify; simpl.

Section DecoderFacts.
Context `{Layer}.

Lemma set_layers_same (self : GemmaTransformerDecoder) :
  set_layers (layers self) self = self.
Proof. by destruct self. Qed.

Lemma for_layers_length {A} (body : A -> method layer_state A) a ls :
  length (fst (for_layers body a ls)) = length ls.
Proof.
  revert a. induction ls as [|l rest IH]; intros a; simpl; [done |].
  destruct (body a l) as [l' [a'|e]]; simpl; [| done].
  specialize (IH a'). destruct (for_layers body a' rest) as [rest' r]. simpl in *.
  by rewrite IH.
Qed.

(** A loop whose body keeps a property of each layer keeps it for the list,
    however the loop ends. *)
Lemma for_layers_preserves {A} (P : layer_state -> Prop)
  (body : A -> method layer_state A) a ls :
  (forall a l, P l -> P (fst (body a l))) ->
  Forall P ls -> Forall P (fst (for_layers body a ls)).
Proof.
  intros Hbody. revert a. induction ls as [|l rest IH]; intros a Hls; simpl; [done |].
  inversion Hls as [|? ? Hl Hrest]; subst.
  pose proof (Hbody a l Hl) as Hl'.
  destruct (body a l) as [l' [a'|e]]; simpl in *.
  - specialize (IH a' Hrest). destruct (for_layers body a' rest) as [rest' r].
    simpl in *. by constructor.
  - by constructor.
Qed.


(** The loop runs to its end when the body succeeds on every layer, whatever
    it is handed. *)
Lemma for_layers_completes {A} (body : A -> method layer_state A) a ls :
  Forall (fun l => forall a, is_ok (snd (body a l)) = true) ls ->
  is_ok (snd (for_layers body a ls)) = true.
Proof.
  intros Hls. revert a. induction Hls as [|l rest Hl _ IH]; intros a; simpl; [done |].
  specialize (Hl a). destruct (body a l) as [l' [a'|e]]; simpl in *; [| done].
  specialize (IH a'). by destruct (for_layers body a' rest).
Qed.

(** *** What each method does to the object *)

Lemma caches_are_setup_state self : fst (caches_are_setup self) = self.
Proof. unfold caches_are_setup. run_method. by destruct (layers self). Qed.

Lemma chunked_output_state h self : fst (chunked_output h self) = self.
Proof.
  unfold chunked_output. run_method.
  by destruct (chunk1 h (num_output_chunks self)).
Qed.

Lemma project_state h self : fst (project h self) = self.
Proof.
  unfold project. run_method. destruct (0 <? num_output_chunks self)%Z.
  - pose proof (chunked_output_state h self) as Hc.
    destruct (chunked_output h self) as [s [cs|e]]; simpl in *; by subst.
  - by destruct (linear h (tok_embeddings self)).
Qed.

Lemma resolve_mask_state mask input_pos self :
  fst (resolve_mask mask input_pos self) = self.
Proof.
  unfold resolve_mask. run_method.
  destruct (causal_mask self) as [cm|]; [| done].
  destruct input_pos as [pos|]; [| done].
  destruct mask; [done |].
  by destruct (getitem_None cm pos).
Qed.

(** [forward] only ever replaces the list of layers. *)
Lemma run_layers_state h mask input_pos self :
  exists ls,
    fst (run_layers h mask input_pos self) = set_layers ls self /\
    length ls = length (layers self) /\
    forall P : layer_state -> Prop,
      (forall h m p l, P l -> P (fst (layer_forward h m p l))) ->
      Forall P (layers self) -> Forall P ls.
Proof.
  unfold run_layers, on_layers. run_method.
  set (h0 := if norm_embeddings self then _ else h).
  pose proof (for_layers_length (fun h => layer_forward h mask input_pos) h0
                (layers self)) as Hlen.
  pose proof (fun P => for_layers_preserves P (fun h => layer_forward h mask input_pos)
                         h0 (layers self)) as Hpres.
  destruct (for_layers _ h0 (layers self)) as [ls [h1|e]]; simpl in *.
  - exists ls. split; [| split; [done |]].
    + by destruct (norm self h1).
    + intros P HP. apply Hpres. intros a l. apply HP.
  - exists ls. split; [done | split; [done |]].
    intros P HP. apply Hpres. intros a l. apply HP.
Qed.

Lemma final_hidden_state_state tokens mask input_pos self :
  exists ls,
    fst (final_hidden_state tokens mask input_pos self) = set_layers ls self /\
    length ls = length (layers self) /\
    forall P : layer_state -> Prop,
      (forall h m p l, P l -> P (fst (layer_forward h m p l))) ->
      Forall P (layers self) -> Forall P ls.
Proof.
  unfold final_hidden_state. run_method.
  destruct (embedding (tok_embeddings self) tokens) as [h|e].
  2:{ exists (layers self). by rewrite set_layers_same. }
  pose proof (resolve_mask_state mask input_pos self) as Hm.
  destruct (resolve_mask mask input_pos self) as [s [m|e]]; simpl in Hm; subst s.
  2:{ exists (layers self). by rewrite set_layers_same. }
  apply run_layers_state.
Qed.

Lemma forward_state tokens mask input_pos self :
  exists ls,
    fst (forward tokens mask input_pos self) = set_layers ls self /\
    length ls = length (layers self) /\
    forall P : layer_state -> Prop,
      (forall h m p l, P l -> P (fst (layer_forward h m p l))) ->
      Forall P (layers self) -> Forall P ls.
Proof.
  destruct (final_hidden_state_state tokens mask input_pos self) as (ls & Hs & Hl & HP).
  exists ls. split; [| done].
  unfold forward. run_method.
  destruct (final_hidden_state tokens mask input_pos self) as [s [h|e]]; simpl in *.
  - subst s. pose proof (project_state h (set_layers ls self)) as Hp.
    by destruct (project h (set_layers ls self)).
  - done.
Qed.

(** [forward] is its first part followed by the output projection. *)
Lemma forward_project tokens mask input_pos self self' h :
  final_hidden_state tokens mask input_pos self = (self', Ok h) ->
  forward tokens mask input_pos self = project h self'.
Proof. intros Hh. unfold forward. run_method. by rewrite Hh. Qed.

(** [setup_caches], step by step: the layers are what the loop left, the mask
    is assigned only when the loop and the construction of the mask went
    through, and nothing else but the two length attributes changes. *)
Lemma setup_caches_spec b dt enc dec self :
  let self' := fst (setup_caches b dt enc dec self) in
  let loop := for_layers (fun _ => layer_setup_caches b dt enc dec) tt (layers self) in
  layers self' = fst loop /\
  max_seq_len self' = max_seq_len self /\
  match snd loop, build_causal_mask (max_seq_len self) with
  | Ok _, Ok m => causal_mask self' = Some m /\ snd (setup_caches b dt enc dec self) = Ok tt
  | Ok _, Raise e | Raise e, _ =>
      causal_mask self' = causal_mask self /\
      snd (setup_caches b dt enc dec self) = Raise e
  end.
Proof.
  unfold setup_caches, on_layers. run_method.
  destruct enc as [e|], dec as [d|]; simpl;
    destruct (for_layers _ tt (layers self)) as [ls [[]|err]]; simpl;
    try destruct (build_causal_mask (max_seq_len self)); simpl; done.
Qed.

Lemma build_causal_mask_ok n m :
  build_causal_mask n = Ok m -> (0 <= n)%Z /\ m = tril (ones (Z.to_nat n) (Z.to_nat n)).
Proof.
  unfold build_causal_mask. destruct (Z.ltb_spec n 0); [done |].
  intros [= <-]. done.
Qed.

Lemma run_call_max_seq_len c self :
  max_seq_len (fst (run_call c self)) = max_seq_len self.
Proof.
  destruct c as [|n|b dt enc dec|h|tokens mask input_pos]; simpl.
  - pose proof (caches_are_setup_state self).
    destruct (caches_are_setup self); simpl in *; by subst.
  - done.
  - pose proof (setup_caches_spec b dt enc dec self) as (_ & Hm & _).
    by destruct (setup_caches b dt enc dec self).
  - pose proof (chunked_output_state h self).
    destruct (chunked_output h self); simpl in *; by subst.
  - destruct (forward_state tokens mask input_pos self) as (ls & Hs & _).
    destruct (forward tokens mask input_pos self); simpl in *; by subst.
Qed.

(** No public method but [setup_caches] assigns [causal_mask], and
    [setup_caches] assigns the lower triangle. *)
Lemma run_call_keeps_mask c self :
  mask_built self -> mask_built (fst (run_call c self)).
Proof.
  unfold mask_built. rewrite run_call_max_seq_len.
  destruct c as [|n|b dt enc dec|h|tokens mask input_pos]; simpl.
  - pose proof (caches_are_setup_state self).
    destruct (caches_are_setup self); simpl in *; by subst.
  - done.
  - pose proof (setup_caches_spec b dt enc dec self) as (_ & _ & Hm).
    destruct (setup_caches b dt enc dec self) as [self' r]. simpl in *.
    destruct (snd (for_layers _ tt (layers self))) as [[]|e];
      [destruct (build_causal_mask (max_seq_len self)) as [m|e] eqn:Hb |];
      destruct Hm as [-> _]; try done.
    apply build_causal_mask_ok in Hb as [_ ->]. done.
  - pose proof (chunked_output_state h self).
    destruct (chunked_output h self); simpl in *; by subst.
  - destruct (forward_state tokens mask input_pos self) as (ls & Hs & _).
    destruct (forward tokens mask input_pos self); simpl in *; by subst.
Qed.

Lemma run_calls_keeps_mask cs self :
  mask_built self ->
  mask_built (run_calls cs self) /\
  max_seq_len (run_calls cs self) = max_seq_len self.
Proof.
  revert self. induction cs as [|c cs IH]; intros self Hm; simpl; [done |].
  destruct (IH _ (run_call_keeps_mask c self Hm)) as [Hb Hl].
  split; [done |]. by rewrite Hl, run_call_max_seq_len.
Qed.

(** [setup_caches] returns when every layer accepts the arguments and
    [max_seq_len] is a size. *)
Lemma setup_caches_completes b dt enc dec self :
  (0 <= max_seq_len self)%Z ->
  Forall (fun l => snd (layer_setup_caches b dt enc dec l) = Ok tt) (layers self) ->
  exists self',
    setup_caches b dt enc dec self = (self', Ok tt) /\ mask_built self'.
Proof.
  intros HL Hls.
  pose proof (setup_caches_spec b dt enc dec self) as (_ & Hmax & Hm).
  assert (is_ok (snd (for_layers (fun _ => layer_setup_caches b dt enc dec) tt
                        (layers self))) = true) as Hloop.
  { apply for_layers_completes. eapply Forall_impl; [exact Hls |].
    intros l Hl a. simpl in Hl. by rewrite Hl. }
  destruct (setup_caches b dt enc dec self) as [self' r]. simpl in *.
  destruct (snd (for_layers _ tt (layers self))) as [[]|e]; [| done].
  unfold build_causal_mask in Hm. destruct (Z.ltb_spec (max_seq_len self) 0); [lia |].
  destruct Hm as [Hcm ->]. exists self'. split; [done |].
  unfold mask_built. by rewrite Hmax.
Qed.

(** C4: for a valid [max_seq_len] L, a call of [setup_caches] (which returns
    once every layer has accepted the arguments), made in any state at all,
    leaves [causal_mask = tril(ones(L, L))]: L rows of length L, entry (i, j)
    true exactly when j <= i.  The mask does not depend on what was stored
    before, and it is still the stored mask after any further sequence of
    calls of the public methods. *)
Theorem setup_caches_builds_causal_mask b dt enc dec self :
  (0 <= max_seq_len self)%Z ->
  Forall (fun l => snd (layer_setup_caches b dt enc dec l) = Ok tt) (layers self) ->
  let L := Z.to_nat (max_seq_len self) in
  exists self',
    setup_caches b dt enc dec self = (self', Ok tt) /\
    forall cs,
      causal_mask (run_calls cs self') = Some (tril (ones L L)) /\
      lower_triangular L (tril (ones L L)) /\
      max_seq_len (run_calls cs self') = max_seq_len self.
Proof.
  intros HL Hls L.
  destruct (setup_caches_completes b dt enc dec self HL Hls) as (self' & Hs & Hb).
  pose proof (setup_caches_spec b dt enc dec self) as (_ & Hmax & _).
  rewrite Hs in Hmax. simpl in Hmax.
  exists self'. split; [done |]. intros cs.
  destruct (run_calls_keeps_mask cs self' Hb) as [Hm Hl].
  unfold mask_built in Hm. rewrite Hl, Hmax in Hm.
  split; [done |]. split; [apply tril_ones_lower_triangular | congruence].
Qed.

Section Uniform.
Context `{!LayerContract}.






End Uniform.

(** *** The calls of the layers *)

(** The loop of [forward] calls the layers as [layers_called_with] says. *)
Lemma for_layers_called mask input_pos (h : Tensor3) ls :
  layers_called_with mask input_pos h ls
    (fst (for_layers (fun h => layer_forward h mask input_pos) h ls))
    (snd (for_layers (fun h => layer_forward h mask input_pos) h ls)).
Proof.
  revert h. induction ls as [|l ls IH]; intros h; simpl; [constructor |].
  destruct (layer_forward h mask input_pos l) as [l' [h'|e]] eqn:Hl.
  - specialize (IH h').
    destruct (for_layers _ h' ls) as [ls' r]. simpl in *.
    by eapply called_next.
  - simpl. by apply called_raise.
Qed.

(** [forward], once the tokens are embedded and the mask is settled: it
    calls the layers with that mask and [input_pos], and goes on from what
    they returned. *)
Lemma forward_calls_layers tokens mask input_pos self (h : Tensor3) m :
  embedding (tok_embeddings self) tokens = Ok h ->
  resolve_mask mask input_pos self = (self, Ok m) ->
  exists ls r,
    layers_called_with m input_pos (scale_embeddings self h) (layers self) ls r /\
    forward tokens mask input_pos self = after_layers ls r self.
Proof.
  intros Hemb Hm.
  pose proof (for_layers_called m input_pos (scale_embeddings self h) (layers self))
    as Hcalled.
  exists (fst (for_layers (fun h => layer_forward h m input_pos)
                 (scale_embeddings self h) (layers self))),
         (snd (for_layers (fun h => layer_forward h m input_pos)
                 (scale_embeddings self h) (layers self))).
  split; [exact Hcalled |].
  unfold forward, final_hidden_state, run_layers, on_layers, after_layers,
    scale_embeddings.
  run_method. rewrite Hemb, Hm.
  destruct (for_layers _ _ (layers self)) as [ls [h'|e]]; simpl; [| done].
  by destruct (norm self h').
Qed.

(** *** Mode resolution in [forward] *)

(** Gathering rows at indices inside the mask succeeds, and the rows of the
    result are the rows of the mask at these indices, in order. *)
Lemma getitem_None_in_range (cm : list (list bool)) input_pos :
  Forall (fun p => (0 <= p < Z.of_nat (length cm))%Z) (positions_flat input_pos) ->
  exists m,
    getitem_None cm input_pos = Ok m /\
    Forall2 (fun p row => cm !! Z.to_nat p = Some row)
            (positions_flat input_pos) (mask_rows m).
Proof.
  set (g := fun p : Z => default [] (cm !! Z.to_nat p)).
  assert (forall p, (0 <= p < Z.of_nat (length cm))%Z ->
                    cm !! Z.to_nat p = Some (g p) /\ index_row cm p = Ok (g p)) as Hg.
  { intros p Hp. unfold g.
    destruct (cm !! Z.to_nat p) as [row|] eqn:Hrow; simpl.
    - split; [done |]. apply index_row_in_range; [lia | done].
    - apply lookup_ge_None in Hrow. lia. }
  destruct input_pos as [ps|pss]; simpl; intros Hps.
  - exists (Bool3D [map g ps]). split.
    + rewrite (traverse_total _ g); [done |].
      eapply Forall_impl; [exact Hps |]. intros p Hp. by apply Hg.
    + simpl. rewrite app_nil_r. apply Forall2_fmap_r, Forall_Forall2_diag.
      eapply Forall_impl; [exact Hps |]. intros p Hp. by apply Hg.
  - exists (Bool4D [map (map g) pss]). split.
    + rewrite (traverse_total _ (map g)); [done |].
      apply Forall_forall. intros ps Hin. apply traverse_total.
      apply Forall_forall. intros p Hp. apply Hg.
      rewrite Forall_forall in Hps. apply Hps.
      apply list_elem_of_In, in_concat. exists ps.
      split; by apply list_elem_of_In.
    + simpl. rewrite !app_nil_r, <- concat_map.
      apply Forall2_fmap_r, Forall_Forall2_diag.
      eapply Forall_impl; [exact Hps |]. intros p Hp. by apply Hg.
Qed.

(** C1: with the mask that [setup_caches] stored, positions inside
    [0, max_seq_len) and no mask from the caller, [forward] gathers the rows of
    the causal mask at [input_pos], and that gathered mask (with [input_pos])
    is what every decoder layer is called with: the layers are called in
    order with it, all of them unless one raises.  For each position p the
    row of the mask is row p of the causal mask, of length max_seq_len, true
    in the columns 0..p and false in the columns after p.  The token ids are
    assumed to be in the embedding table. *)
Theorem forward_cached_mask_is_gather tokens input_pos self h :
  mask_built self ->
  embedding (tok_embeddings self) tokens = Ok h ->
  Forall (fun p => (0 <= p < max_seq_len self)%Z) (positions_flat input_pos) ->
  let L := Z.to_nat (max_seq_len self) in
  exists m,
    getitem_None (tril (ones L L)) input_pos = Ok m /\
    forward tokens None (Some input_pos) self =
      (h' ← run_layers h (Some m) (Some input_pos); project h') self /\
    (exists ls r,
        layers_called_with (Some m) (Some input_pos)
          (scale_embeddings self h) (layers self) ls r /\
        forward tokens None (Some input_pos) self = after_layers ls r self) /\
    Forall2 (fun p row =>
               tril (ones L L) !! Z.to_nat p = Some row /\
               length row = L /\
               forall j, (j < L)%nat ->
                 row !! j = Some (bool_decide (j <= Z.to_nat p)%nat))
            (positions_flat input_pos) (mask_rows m).
Proof.
  intros Hb Hemb Hpos L.
  destruct (tril_ones_lower_triangular L) as [Hlen Hrows].
  destruct (getitem_None_in_range (tril (ones L L)) input_pos) as (m & Hget & Hm).
  { eapply Forall_impl; [exact Hpos |]. intros p Hp. simpl in Hp. rewrite Hlen. lia. }
  assert (resolve_mask None (Some input_pos) self = (self, Ok (Some m))) as Hres.
  { unfold resolve_mask. run_method. rewrite Hb. fold L. by rewrite Hget. }
  exists m. split; [done |]. split; [| split].
  - unfold forward, final_hidden_state. run_method. by rewrite Hemb, Hres.
  - by apply forward_calls_layers.
  - eapply Forall2_impl.
    + exact (Forall2_with_l _ _ _ _ Hpos Hm).
    + intros p row [Hp Hrow]. simpl in *.
      destruct (Hrows (Z.to_nat p)) as (row' & Hrow' & Hl & Hcols); [lia |].
      assert (row' = row) as -> by congruence. done.
Qed.

(** C2: once the causal mask is stored, a call without [input_pos] raises
    [ValueError] (whatever [mask] is) and returns no logits.  The token ids
    are assumed to be in the embedding table, whose lookup comes first. *)
Theorem forward_requires_input_pos tokens mask self cm h :
  causal_mask self = Some cm ->
  embedding (tok_embeddings self) tokens = Ok h ->
  forward tokens mask None self = (self, Raise (ValueError missing_input_pos)).
Proof.
  intros Hcm Hemb. unfold forward, final_hidden_state, resolve_mask. run_method.
  by rewrite Hemb, Hcm.
Qed.

(** C3: once the causal mask is stored, a call with an explicit [mask] raises
    [ValueError], with or without [input_pos]; the mask of the caller is never
    used.  The token ids are assumed to be in the embedding table. *)
Theorem forward_rejects_explicit_mask tokens m input_pos self cm h :
  causal_mask self = Some cm ->
  embedding (tok_embeddings self) tokens = Ok h ->
  forward tokens (Some m) input_pos self =
    (self, Raise (ValueError match input_pos with
                             | None => missing_input_pos
                             | Some _ => mask_was_set
                             end)).
Proof.
  intros Hcm Hemb. unfold forward, final_hidden_state, resolve_mask. run_method.
  rewrite Hemb, Hcm. by destruct input_pos.
Qed.

(** C9: once the causal mask is stored, a call without [input_pos] or with an
    explicit [mask] is rejected before any layer runs: the call raises and the
    decoder, its layers included, is the object it was before the call; the
    exception is the [ValueError] whenever the embedding lookup went through. *)
Theorem rejected_forward_leaves_state tokens mask input_pos self cm :
  causal_mask self = Some cm ->
  input_pos = None \/ mask <> None ->
  exists e,
    forward tokens mask input_pos self = (self, Raise e) /\
    layers (fst (forward tokens mask input_pos self)) = layers self /\
    (is_ok (embedding (tok_embeddings self) tokens) = true ->
     exists msg, e = ValueError msg).
Proof.
  intros Hcm Hargs.
  unfold forward, final_hidden_state, resolve_mask. run_method. rewrite Hcm.
  destruct (embedding (tok_embeddings self) tokens) as [h|e]; simpl.
  - destruct input_pos as [pos|].
    + destruct mask as [m|]; [| by destruct Hargs].
      exists (ValueError mask_was_set). eauto.
    + exists (ValueError missing_input_pos). eauto.
  - exists e. done.
Qed.

End DecoderFacts.

(** ** Chunking an axis *)

Lemma map_seq_const {A} (f : nat -> A) (x : A) m :
  (forall i, (i < m)%nat -> f i = x) -> map f (seq 0 m) = replicate m x.
Proof.
  induction m as [|m IH]; intros Hf; [done |].
  rewrite seq_S, map_app, replicate_S_end, IH by (intros; apply Hf; lia).
  simpl. by rewrite Hf by lia.
Qed.

Lemma map_seq_all_but_last {A} (k last : A) n :
  (0 < n)%nat ->
  map (fun i => if (i <? n - 1)%nat then k else last) (seq 0 n)
  = replicate (n - 1) k ++ [last].
Proof.
  destruct n as [|m]; [lia |]. intros _.
  replace (S m - 1)%nat with m by lia.
  rewrite seq_S, map_app. simpl. f_equal.
  - apply map_seq_const. intros i Hi. by destruct (Nat.ltb_spec i m); [| lia].
  - by rewrite Nat.ltb_irrefl.
Qed.

(** When the number of chunks divides the size, the pieces are [c] runs of
    [s / c], also for an empty axis. *)
Lemma chunk_pieces_divisible q c :
  (0 < c)%nat ->
  chunk_pieces (q * c) c = map (fun i => (i * q, q)%nat) (seq 0 c).
Proof.
  intros Hc. unfold chunk_pieces.
  assert ((q * c + c - 1) / c = q)%nat as ->.
  { symmetry. apply (Nat.div_unique _ _ _ (c - 1)%nat); lia. }
  destruct (Nat.eqb_spec q 0) as [-> | Hq].
  - symmetry. apply map_seq_const. intros i _. f_equal. lia.
  - assert ((q * c + q - 1) / q = c)%nat as ->.
    { symmetry. apply (Nat.div_unique _ _ _ (q - 1)%nat); lia. }
    rewrite Nat.max_l by lia.
    apply map_ext_in. intros i _. f_equal.
    destruct (i <? c - 1)%nat; lia.
Qed.

(** In general there are between one and [c] pieces, they cover the axis, all
    but the last have [ceil(s / c)] elements and the last has no more. *)
Lemma chunk_pieces_lengths s c :
  (0 < c)%nat ->
  let k := ((s + c - 1) / c)%nat in
  exists n last,
    map snd (chunk_pieces s c) = replicate (n - 1) k ++ [last] /\
    (1 <= n <= c)%nat /\ (last <= k)%nat /\ ((n - 1) * k + last = s)%nat.
Proof.
  intros Hc k. unfold chunk_pieces. fold k.
  pose proof (Nat.div_mod_eq (s + c - 1) c) as Hk. fold k in Hk.
  pose proof (Nat.mod_upper_bound (s + c - 1) c ltac:(lia)) as Hr.
  destruct (Nat.eqb_spec k 0) as [Hk0 | Hk0].
  - exists c, 0%nat. rewrite Hk0 in *.
    split; [| lia].
    destruct c as [|c']; [lia |]. replace (S c' - 1)%nat with c' by lia.
    rewrite replicate_S_end, map_app. simpl. f_equal.
    clear. induction c' as [|c'' IH]; [done |]. simpl. by f_equal.
  - set (n := ((s + k - 1) / k)%nat).
    pose proof (Nat.div_mod_eq (s + k - 1) k) as Hn. fold n in Hn.
    pose proof (Nat.mod_upper_bound (s + k - 1) k Hk0) as Hr'.
    assert (1 <= n)%nat as Hn1 by nia.
    rewrite Nat.max_l by lia.
    exists n, (k - (k * n - s))%nat.
    split; [| nia].
    rewrite map_map. simpl. by apply map_seq_all_but_last.
Qed.

(** Cutting a list into [c] runs of [q] and joining them gives its first
    [c * q] elements. *)
Lemma concat_take_drop {A} (l : list A) q c :
  concat (map (fun i => take q (drop (i * q) l)) (seq 0 c)) = take (c * q) l.
Proof.
  induction c as [|c IH]; [done |].
  rewrite seq_S, map_app, concat_app, IH. simpl. rewrite app_nil_r.
  rewrite take_take_drop. f_equal. lia.
Qed.

Lemma map_lookup_seq {A} (d : A) (l : list A) :
  map (fun i => default d (l !! i)) (seq 0 (length l)) = l.
Proof.
  induction l as [|x l IH] using rev_ind; [done |].
  replace (length (l ++ [x])) with (S (length l))
    by (rewrite length_app; simpl; lia).
  rewrite seq_S, map_app. simpl. f_equal.
  - etransitivity; [| exact IH]. apply map_ext_in. intros i Hi.
    apply in_seq in Hi. by rewrite lookup_app_l by lia.
  - by rewrite list_lookup_middle.
Qed.

Lemma map_replicate {A B} (f : A -> B) n x :
  map f (replicate n x) = replicate n (f x).
Proof. induction n as [|n IH]; [done |]. simpl. by f_equal. Qed.

Lemma lookup_map {A B} (f : A -> B) (l : list A) i :
  map f l !! i = f <$> l !! i.
Proof.
  revert i. induction l as [|x l IH]; intros [|i]; simpl; try done.
Qed.

Lemma traverse_map_total {A B C} (f : B -> result C) (g : A -> B) (g' : A -> C) xs :
  (forall x, f (g x) = Ok (g' x)) -> traverse f (map g xs) = Ok (map g' xs).
Proof.
  intros Hf. induction xs as [|x xs IH]; simpl; [done |]. by rewrite Hf, IH.
Qed.

(** ** The output projection *)

Section Projection.
Context `{Layer}.

Lemma wf_tensor3_spec (t : Tensor3) :
  wf_tensor3 t = true ->
  length (data3 t) = size0 t /\ Forall (fun b => length b = size1 t) (data3 t).
Proof.
  unfold wf_tensor3. intros Hwf.
  apply andb_true_iff in Hwf as [Hlen Hrows].
  apply Nat.eqb_eq in Hlen. split; [done |].
  apply Forall_forall. intros b Hb.
  rewrite forallb_forall in Hrows.
  specialize (Hrows b (proj1 (list_elem_of_In _ _) Hb)).
  apply andb_true_iff in Hrows as [Hb' _]. by apply Nat.eqb_eq.
Qed.

Lemma linear_ok (h : Tensor3) (W : Tensor2) :
  dtype3 h = dtype2 W ->
  size2 h = cols2 W ->
  linear h W =
    Ok {| dtype3 := dtype3 h; size0 := size0 h; size1 := size1 h; size2 := rows2 W;
          data3 := map (map (fun v => map (dot (dtype3 h) v) (data2 W))) (data3 h) |}.
Proof.
  intros Hd Hs. unfold linear.
  rewrite bool_decide_eq_true_2 by done. simpl.
  by rewrite (proj2 (Nat.eqb_eq _ _) Hs).
Qed.

Lemma linear_inv (h : Tensor3) (W : Tensor2) full :
  linear h W = Ok full ->
  dtype3 h = dtype2 W /\ size2 h = cols2 W /\
  dtype3 full = dtype3 h /\ size0 full = size0 h /\ size1 full = size1 h /\
  size2 full = rows2 W /\
  data3 full = map (map (fun v => map (dot (dtype3 h) v) (data2 W))) (data3 h).
Proof.
  unfold linear. case_bool_decide as Hd; simpl; [| done].
  destruct (Nat.eqb_spec (size2 h) (cols2 W)) as [Hs|]; simpl; [| done].
  intros [= <-]. done.
Qed.

(** The projection works on each position by itself, so it commutes with
    taking a slice of the sequence axis. *)
Lemma linear_narrow1 (h : Tensor3) (W : Tensor2) full a b :
  linear h W = Ok full -> linear (narrow1 h a b) W = Ok (narrow1 full a b).
Proof.
  intros Hfull.
  destruct (linear_inv h W full Hfull) as (Hd & Hs & Hd' & Hs0 & Hs1 & Hs2 & Hdata).
  rewrite linear_ok by done. unfold narrow1. simpl.
  rewrite Hd', Hs0, Hs2, Hdata. do 2 f_equal.
  rewrite !map_map. apply map_ext. intros rows.
  by rewrite <- firstn_map, <- skipn_map.
Qed.

Lemma chunk1_pieces (h : Tensor3) (C : Z) :
  (0 < C)%Z ->
  chunk1 h C =
    Ok (map (fun p => narrow1 h (fst p) (snd p))
            (chunk_pieces (size1 h) (Z.to_nat C))).
Proof.
  intros HC. unfold chunk1, split1, chunk_pieces.
  destruct (Z.leb_spec C 0); [lia |].
  set (c := Z.to_nat C). set (k := ((size1 h + c - 1) / c)%nat).
  assert (k = 0%nat -> size1 h = 0%nat) as Hk0.
  { unfold k. intros Hk. apply Nat.div_small_iff in Hk; lia. }
  destruct (Nat.eqb_spec k 0) as [Hk | Hk]; simpl.
  - rewrite (Hk0 Hk). simpl. by rewrite map_replicate.
  - by rewrite map_map.
Qed.

Lemma chunked_output_pieces (h : Tensor3) self full :
  (0 < num_output_chunks self)%Z ->
  linear h (tok_embeddings self) = Ok full ->
  chunked_output h self =
    (self, Ok (map (fun p => narrow1 full (fst p) (snd p))
                   (chunk_pieces (size1 h) (Z.to_nat (num_output_chunks self))))).
Proof.
  intros HC Hfull. unfold chunked_output. run_method.
  rewrite chunk1_pieces by done. f_equal.
  apply traverse_map_total. intros [a b]. simpl. by apply linear_narrow1.
Qed.

Lemma float_dtype (t : Tensor3) : dtype3 (float t) = float32.
Proof. unfold float. by case_bool_decide. Qed.

Lemma float_shape (t : Tensor3) : shape3 (float t) = shape3 t.
Proof. unfold float. by case_bool_decide. Qed.

(** The non-chunked branch of the projection. *)
Lemma project_unchunked (h : Tensor3) self full :
  (num_output_chunks self <= 0)%Z ->
  linear h (tok_embeddings self) = Ok full ->
  project h self = (self, Ok (Logits (float full))).
Proof.
  intros HC Hfull. unfold project. run_method.
  destruct (Z.ltb_spec 0 (num_output_chunks self)); [lia |]. by rewrite Hfull.
Qed.

(** Joining [c] consecutive slices of [q] positions gives the tensor back. *)
Lemma cat1_slices (full : Tensor3) q c :
  (0 < c)%nat ->
  length (data3 full) = size0 full ->
  Forall (fun b => length b = size1 full) (data3 full) ->
  size1 full = (q * c)%nat ->
  cat1 (map (fun i => narrow1 full (i * q) q) (seq 0 c)) = Ok full.
Proof.
  intros Hc Hlen Hrows Hs.
  remember (map (fun i => narrow1 full (i * q) q) (seq 0 c)) as outs eqn:Houts.
  assert (forall u, In u outs -> exists i, u = narrow1 full (i * q) q) as Hall.
  { subst outs. intros u Hu. apply in_map_iff in Hu as (i & <- & _). by exists i. }
  destruct outs as [|t rest]; [destruct c; [lia | done] |].
  unfold cat1.
  destruct (Hall t (or_introl eq_refl)) as [i0 Ht].
  assert (forallb (fun u => bool_decide (dtype3 u = dtype3 t)
                            && (size0 u =? size0 t)%nat
                            && (size2 u =? size2 t)%nat) (t :: rest) = true) as ->.
  { apply forallb_forall. intros u Hu. destruct (Hall u Hu) as [i ->]. subst t.
    simpl. rewrite bool_decide_eq_true_2 by done. by rewrite !Nat.eqb_refl. }
  rewrite Houts. subst t. clear Houts Hall.
  destruct full as [dt n0 n1 n2 d]. simpl in *. do 2 f_equal.
  - rewrite map_map. simpl.
    rewrite (map_seq_const _ q) by done.
    rewrite sum_list_replicate. lia.
  - rewrite <- Hlen. etransitivity; [| apply (map_lookup_seq [] d)].
    apply map_ext_in. intros b Hb. apply in_seq in Hb.
    destruct (d !! b) as [rows|] eqn:Hd; [| apply lookup_ge_None in Hd; lia].
    simpl. rewrite map_map. simpl.
    rewrite (map_ext _ (fun i => take q (drop (i * q) rows)))
      by (intros i; simpl; by rewrite lookup_map, Hd).
    rewrite concat_take_drop, take_ge; [done |].
    rewrite Forall_forall in Hrows.
    rewrite (Hrows rows) by (eapply list_elem_of_lookup_2; exact Hd). lia.
Qed.

(** C5: for a well-formed hidden state [b x s x d] that the embedding weight
    can be applied to, and a chunk count C > 0 that divides s, the chunked
    projection returns C tensors of shape [b x s/C x vocab_size], and their
    concatenation along the sequence axis is [F.linear(h, weight)], the tensor
    the non-chunked branch computes (and then converts with [.float()]).  The
    arithmetic of [F.linear] is a parameter that works on one position at a
    time, so the two agree exactly. *)
Theorem chunked_output_concat (h : Tensor3) self :
  wf_tensor3 h = true ->
  dtype3 h = dtype2 (tok_embeddings self) ->
  size2 h = cols2 (tok_embeddings self) ->
  (0 < num_output_chunks self)%Z ->
  (Z.of_nat (size1 h) mod num_output_chunks self = 0)%Z ->
  let c := Z.to_nat (num_output_chunks self) in
  exists outs full,
    chunked_output h self = (self, Ok outs) /\
    linear h (tok_embeddings self) = Ok full /\
    project h (set_output_chunks 0 self)
      = (set_output_chunks 0 self, Ok (Logits (float full))) /\
    length outs = c /\
    Forall (fun o => shape3 o
                     = (size0 h, (size1 h / c)%nat, rows2 (tok_embeddings self))) outs /\
    cat1 outs = Ok full.
Proof.
  intros Hwf Hd Hs HC Hdiv c.
  pose proof (linear_ok h _ Hd Hs) as Hfull.
  set (full := {| dtype3 := dtype3 h |}) in Hfull.
  assert (0 < c)%nat as Hc by lia.
  set (q := (size1 h / c)%nat).
  assert (size1 h = (q * c)%nat) as Hq.
  { apply Z.mod_divide in Hdiv as [z Hz]; [| lia].
    assert (Z.of_nat (size1 h) = z * Z.of_nat c)%Z as Hz' by lia.
    assert (0 <= z)%Z as Hz0 by nia.
    assert (size1 h = (Z.to_nat z * c)%nat) as Hsz by nia.
    unfold q. rewrite Hsz at 1. rewrite Hsz. by rewrite Nat.div_mul by lia. }
  exists (map (fun i => narrow1 full (i * q) q) (seq 0 c)), full.
  split; [| split; [done | split; [| split; [| split]]]].
  - rewrite (chunked_output_pieces h self full HC Hfull). fold c.
    rewrite Hq, chunk_pieces_divisible by done. by rewrite map_map.
  - by apply project_unchunked.
  - by rewrite length_map, length_seq.
  - apply Forall_forall. intros o Ho.
    apply list_elem_of_In, in_map_iff in Ho as (i & <- & _). done.
  - destruct (wf_tensor3_spec h Hwf) as [Hlen Hrows].
    apply cat1_slices; [done | | | done]; simpl.
    + by rewrite length_map.
    + apply Forall_forall. intros rows Hin.
      apply list_elem_of_In, in_map_iff in Hin as (rows' & <- & Hin').
      rewrite length_map. rewrite Forall_forall in Hrows.
      by apply Hrows, list_elem_of_In.
Qed.

(** Whatever the length of the sequence, the chunked projection returns:
    between one and C tensors that keep the dtype and the batch size of the
    hidden state, all but the last over [ceil(s / C)] positions, the last over
    the positions that are left. *)
Lemma chunked_output_any_length (h : Tensor3) self :
  dtype3 h = dtype2 (tok_embeddings self) ->
  size2 h = cols2 (tok_embeddings self) ->
  (0 < num_output_chunks self)%Z ->
  let c := Z.to_nat (num_output_chunks self) in
  let k := ((size1 h + c - 1) / c)%nat in
  exists outs n last,
    chunked_output h self = (self, Ok outs) /\
    map size1 outs = replicate (n - 1) k ++ [last] /\
    Forall (fun o => dtype3 o = dtype3 h /\ size0 o = size0 h /\
                     size2 o = rows2 (tok_embeddings self)) outs /\
    (1 <= n <= c)%nat /\ (last <= k)%nat /\ ((n - 1) * k + last = size1 h)%nat.
Proof.
  intros Hd Hs HC c k.
  pose proof (linear_ok h _ Hd Hs) as Hfull.
  destruct (chunk_pieces_lengths (size1 h) c ltac:(lia)) as (n & last & Hp & Hn).
  fold k in Hp, Hn.
  eexists _, n, last. split; [by apply chunked_output_pieces |].
  fold c. split; [| split; [| done]].
  - rewrite map_map. simpl. by rewrite <- Hp.
  - apply Forall_forall. intros o Ho.
    apply list_elem_of_In, in_map_iff in Ho as (p & <- & _). done.
Qed.

Section Shapes.
Context `{!LayerContract}.

Lemma for_layers_forward_shape mask input_pos (h h' : Tensor3) ls ls' :
  for_layers (fun h => layer_forward h mask input_pos) h ls = (ls', Ok h') ->
  shape3 h' = shape3 h.
Proof.
  revert h ls'. induction ls as [|l rest IH]; intros h ls'; simpl.
  - by intros [= _ <-].
  - destruct (layer_forward h mask input_pos l) as [l1 [h1|e]] eqn:Hl; [| done].
    destruct (for_layers _ h1 rest) as [rest' r] eqn:Hrest.
    intros [= _ ->]. rewrite (IH _ _ Hrest).
    by eapply forward_keeps_shape.
Qed.

(** With layers and a normalisation that keep the shape, the final hidden
    state has the batch size and length of the tokens, and [forward] has
    touched nothing but the layers. *)
Lemma final_hidden_state_shape tokens mask input_pos self self' (h : Tensor3) :
  shape_preserving (norm self) ->
  final_hidden_state tokens mask input_pos self = (self', Ok h) ->
  shape3 h = (tok_b tokens, tok_s tokens, cols2 (tok_embeddings self)) /\
  tok_embeddings self' = tok_embeddings self /\
  num_output_chunks self' = num_output_chunks self.
Proof.
  intros Hnorm. unfold final_hidden_state, run_layers, on_layers. run_method.
  unfold embedding. run_method.
  destruct (traverse _ (tok_ids tokens)) as [d|e]; simpl; [| done].
  pose proof (resolve_mask_state mask input_pos self) as Hm.
  destruct (resolve_mask mask input_pos self) as [s [m|e]]; simpl in Hm; subst s;
    [| done].
  set (h0 := if norm_embeddings self then _ else _).
  assert (shape3 h0 = (tok_b tokens, tok_s tokens, cols2 (tok_embeddings self))) as Hh0.
  { unfold h0. by destruct (norm_embeddings self). }
  destruct (for_layers _ h0 (layers self)) as [ls [h1|e]] eqn:Hloop; simpl; [| done].
  destruct (norm self h1) as [h2|e] eqn:Hn; [| done].
  intros [= <- <-]. split; [| done].
  rewrite (Hnorm _ _ Hn), <- Hh0. by eapply for_layers_forward_shape.
Qed.

(** C6, as the code has it: a sequence length that the chunk count C > 0 does
    not divide is not rejected.  When the layers and the normalisation ran,
    [forward] returns the chunks: between one and C tensors, all but the last
    over [ceil(seq_len / C)] positions and the last over what is left, so
    that together they cover the sequence; when C does not divide the length
    there are fewer than C of them or the last one is shorter. *)
Theorem forward_chunks_any_length tokens mask input_pos self self' (h : Tensor3) :
  shape_preserving (norm self) ->
  final_hidden_state tokens mask input_pos self = (self', Ok h) ->
  dtype3 h = dtype2 (tok_embeddings self) ->
  (0 < num_output_chunks self)%Z ->
  let c := Z.to_nat (num_output_chunks self) in
  let k := ((tok_s tokens + c - 1) / c)%nat in
  exists outs n last,
    forward tokens mask input_pos self = (self', Ok (ChunkedLogits outs)) /\
    map shape3 outs
      = map (fun len => (tok_b tokens, len, rows2 (tok_embeddings self)))
            (replicate (n - 1) k ++ [last]) /\
    (1 <= n <= c)%nat /\ (last <= k)%nat /\ ((n - 1) * k + last = tok_s tokens)%nat /\
    (tok_s tokens mod c <> 0 -> n < c \/ last < k)%nat.
Proof.
  intros Hnorm Hh Hd HC c k.
  destruct (final_hidden_state_shape _ _ _ _ _ _ Hnorm Hh) as (Hshape & HW & Hchunks).
  injection Hshape as Hs0 Hs1 Hs2.
  destruct (chunked_output_any_length h self') as (outs & n & last & Hout & Hlens & Hall & Hn);
    [by rewrite HW | by rewrite HW | by rewrite Hchunks |].
  rewrite Hchunks, Hs1 in Hlens, Hn. fold c k in Hlens, Hn.
  exists outs, n, last. split; [| split; [| split; [lia | split; [lia | split; [lia |]]]]].
  - rewrite (forward_project _ _ _ _ _ _ Hh). unfold project. run_method.
    rewrite Hchunks. destruct (Z.ltb_spec 0 (num_output_chunks self)); [| lia].
    by rewrite Hout.
  - rewrite <- Hlens, map_map. apply map_ext_in. intros o Ho.
    rewrite Forall_forall in Hall.
    destruct (Hall o (proj2 (list_elem_of_In _ _) Ho)) as (_ & Ho0 & Ho2).
    unfold shape3. by rewrite Ho0, Ho2, Hs0, HW.
  - intros Hmod.
    destruct (Nat.eq_dec n c) as [-> |]; [| lia].
    destruct (Nat.eq_dec last k) as [-> |]; [| lia].
    exfalso. apply Hmod.
    replace (tok_s tokens) with (k * c)%nat by nia. apply Nat.Div0.mod_mul.
Qed.

(** C8: with chunking disabled, [forward] returns one tensor: the projection
    [F.linear(h, weight)] of the final normalised hidden state with the
    embedding weight, converted with [.float()].  It is float32 whatever the
    dtype of the hidden state, and of shape [batch, seq_len, vocab_size].  The
    layers and the normalisation are assumed to keep the shape, and the
    hidden state to have the dtype of the weight. *)
Theorem forward_logits_float32 tokens mask input_pos self self' (h : Tensor3) :
  shape_preserving (norm self) ->
  final_hidden_state tokens mask input_pos self = (self', Ok h) ->
  dtype3 h = dtype2 (tok_embeddings self) ->
  num_output_chunks self = 0%Z ->
  exists full,
    linear h (tok_embeddings self) = Ok full /\
    forward tokens mask input_pos self = (self', Ok (Logits (float full))) /\
    dtype3 (float full) = float32 /\
    shape3 (float full) = (tok_b tokens, tok_s tokens, rows2 (tok_embeddings self)).
Proof.
  intros Hnorm Hh Hd HC.
  destruct (final_hidden_state_shape _ _ _ _ _ _ Hnorm Hh) as (Hshape & HW & Hchunks).
  injection Hshape as Hs0 Hs1 Hs2.
  pose proof (linear_ok h _ Hd Hs2) as Hfull.
  eexists. split; [exact Hfull |]. split; [| split].
  - rewrite (forward_project _ _ _ _ _ _ Hh).
    apply project_unchunked; [lia | by rewrite HW].
  - apply float_dtype.
  - rewrite float_shape. unfold shape3. simpl. by rewrite Hs0, Hs1.
Qed.

End Shapes.

(** C10, as the code has it: every tensor of the chunked projection has the
    dtype of the hidden state, the chunked branch has no [.float()]; the
    non-chunked branch returns float32.  So the two differ in dtype exactly
    when the hidden state is not float32 itself. *)
Theorem chunked_output_keeps_dtype (h : Tensor3) self :
  dtype3 h = dtype2 (tok_embeddings self) ->
  size2 h = cols2 (tok_embeddings self) ->
  (0 < num_output_chunks self)%Z ->
  exists outs full,
    chunked_output h self = (self, Ok outs) /\
    outs <> [] /\
    Forall (fun o => dtype3 o = dtype3 h) outs /\
    project h (set_output_chunks 0 self)
      = (set_output_chunks 0 self, Ok (Logits (float full))) /\
    dtype3 (float full) = float32 /\
    (Forall (fun o => dtype3 o <> dtype3 (float full)) outs <-> dtype3 h <> float32).
Proof.
  intros Hd Hs HC.
  destruct (chunked_output_any_length h self Hd Hs HC)
    as (outs & n & last & Hout & Hlens & Hall & _).
  pose proof (linear_ok h _ Hd Hs) as Hfull.
  assert (outs <> []) as Hne.
  { intros ->. simpl in Hlens. by destruct (replicate _ _). }
  assert (Forall (fun o => dtype3 o = dtype3 h) outs) as Hdt.
  { eapply Forall_impl; [exact Hall |]. by intros o (Ho & _). }
  eexists outs, _. split; [done |]. split; [done |]. split; [done |].
  split; [by apply project_unchunked |]. split; [apply float_dtype |].
  rewrite float_dtype. split.
  - intros Hdiff. destruct outs as [|o outs]; [done |].
    inversion Hdiff; subst. inversion Hdt; subst. congruence.
  - intros Hh. eapply Forall_impl; [exact Hdt |]. intros o Ho. simpl in *. congruence.
Qed.

End Projection.

(** * Further properties of the decoder *)

Lemma traverse_Raise_inv {A B} (f : A -> result B) xs e :
  traverse f xs = Raise e -> exists x, x ∈ xs /\ f x = Raise e.
Proof.
  induction xs as [|x xs IH]; simpl; [done |].
  destruct (f x) as [y|e'] eqn:Hx.
  - destruct (traverse f xs) as [ys|e'']; [done |].
    intros [= ->]. destruct IH as (x' & Hin & Hx'); [done |].
    exists x'. split; [by right | done].
  - intros [= ->]. exists x. split; [by left | done].
Qed.

Lemma traverse_Ok_inv {A B} (f : A -> result B) xs ys :
  traverse f xs = Ok ys -> Forall2 (fun x y => f x = Ok y) xs ys.
Proof.
  revert ys. induction xs as [|x xs IH]; intros ys; simpl.
  - intros [= <-]. constructor.
  - destruct (f x) as [y|e] eqn:Hx; [| done].
    destruct (traverse f xs) as [ys'|e]; [| done].
    intros [= <-]. constructor; [done | by apply IH].
Qed.

Section LoopFacts.
Context `{Layer}.

(** The loop over the layers, cut in two: the second part starts from what
    the first part returned, and is not run when the first part raised. *)
Lemma for_layers_app {A} (body : A -> method layer_state A) a ls1 ls2 :
  for_layers body a (ls1 ++ ls2) =
    match for_layers body a ls1 with
    | (ls1', Ok a1) =>
        let '(ls2', r) := for_layers body a1 ls2 in (ls1' ++ ls2', r)
    | (ls1', Raise e) => (ls1' ++ ls2, Raise e)
    end.
Proof.
  revert a. induction ls1 as [|l ls1 IH]; intros a; simpl.
  - by destruct (for_layers body a ls2).
  - destruct (body a l) as [l' [a'|e]]; [| done].
    rewrite IH. destruct (for_layers body a' ls1) as [ls1' [a1|e]]; [| done].
    by destruct (for_layers body a1 ls2).
Qed.

(** A loop whose body does not look at the value it is handed (the loop of
    [setup_caches]) treats every layer by itself. *)
Lemma for_layers_unit (body : method layer_state unit) ls :
  Forall (fun l => snd (body l) = Ok tt) ls ->
  for_layers (fun _ => body) tt ls = (map (fun l => fst (body l)) ls, Ok tt).
Proof.
  induction 1 as [|l ls Hl _ IH]; simpl; [done |].
  destruct (body l) as [l' r]. simpl in *. subst r. by rewrite IH.
Qed.

Lemma for_layers_unit_inv (body : method layer_state unit) ls ls' :
  for_layers (fun _ => body) tt ls = (ls', Ok tt) ->
  Forall (fun l => snd (body l) = Ok tt) ls.
Proof.
  revert ls'. induction ls as [|l ls IH]; intros ls'; simpl; [constructor |].
  destruct (body l) as [l' [[]|e]] eqn:Hl; [| done].
  destruct (for_layers _ tt ls) as [rest r] eqn:Hrest.
  intros [= _ ->]. constructor; [by rewrite Hl | by eapply IH].
Qed.

Lemma run_layers_unfold (h : Tensor3) mask input_pos self :
  run_layers h mask input_pos self =
    match for_layers (fun h => layer_forward h mask input_pos)
                     (scale_embeddings self h) (layers self) with
    | (ls, Ok h') => (set_layers ls self, norm self h')
    | (ls, Raise e) => (set_layers ls self, Raise e)
    end.
Proof.
  unfold run_layers, on_layers, scale_embeddings. run_method.
  by destruct (for_layers _ _ (layers self)) as [ls [h'|e]].
Qed.

Lemma forward_unfold tokens mask input_pos self (h : Tensor3) m :
  embedding (tok_embeddings self) tokens = Ok h ->
  resolve_mask mask input_pos self = (self, Ok m) ->
  forward tokens mask input_pos self =
    (h' ← run_layers h m input_pos; project h') self.
Proof.
  intros Hemb Hm. unfold forward, final_hidden_state. run_method.
  by rewrite Hemb, Hm.
Qed.

(** X1: whatever [forward] is called with and however it ends, it leaves the
    configuration of the decoder alone: the embedding weight, the causal mask,
    the chunk count, the lengths and the flag are the ones before the call,
    and there are as many layers as before. *)
Theorem forward_changes_only_layers tokens mask input_pos self :
  let self' := fst (forward tokens mask input_pos self) in
  tok_embeddings self' = tok_embeddings self /\
  causal_mask self' = causal_mask self /\
  num_output_chunks self' = num_output_chunks self /\
  max_seq_len self' = max_seq_len self /\
  norm_embeddings self' = norm_embeddings self /\
  encoder_max_seq_len self' = encoder_max_seq_len self /\
  decoder_max_seq_len self' = decoder_max_seq_len self /\
  length (layers self') = length (layers self).
Proof.
  intros self'. unfold self'.
  destruct (forward_state tokens mask input_pos self) as (ls & -> & Hlen & _).
  done.
Qed.

(** X2: [forward] is not atomic.  When the layers before layer k ran and
    layer k raises, [forward] raises the same exception; the layers before k
    keep the state their call left, layer k is as its failed call left it, and
    the layers after k were never called. *)
Theorem forward_layer_failure tokens mask input_pos self (h h1 : Tensor3) m
    pre pre' l l' post e :
  embedding (tok_embeddings self) tokens = Ok h ->
  resolve_mask mask input_pos self = (self, Ok m) ->
  layers self = pre ++ l :: post ->
  for_layers (fun h => layer_forward h m input_pos) (scale_embeddings self h) pre
    = (pre', Ok h1) ->
  layer_forward h1 m input_pos l = (l', Raise e) ->
  forward tokens mask input_pos self = (set_layers (pre' ++ l' :: post) self, Raise e).
Proof.
  intros Hemb Hm Hls Hpre Hl.
  rewrite (forward_unfold _ _ _ _ _ _ Hemb Hm). run_method.
  rewrite run_layers_unfold, Hls, for_layers_app, Hpre. simpl. by rewrite Hl.
Qed.

(** X3: without a causal mask (no cache was set up) [forward] has no
    precondition on [mask] and [input_pos]: every layer is called with the two
    as the caller gave them, absent ones included (the layers are called in
    order, all of them unless one raises).  The token ids are assumed to be in
    the embedding table. *)
Theorem forward_without_cache tokens mask input_pos self (h : Tensor3) :
  causal_mask self = None ->
  embedding (tok_embeddings self) tokens = Ok h ->
  forward tokens mask input_pos self =
    (h' ← run_layers h mask input_pos; project h') self /\
  exists ls r,
    layers_called_with mask input_pos (scale_embeddings self h) (layers self) ls r /\
    forward tokens mask input_pos self = after_layers ls r self.
Proof.
  intros Hcm Hemb.
  assert (resolve_mask mask input_pos self = (self, Ok mask)) as Hres.
  { unfold resolve_mask. run_method. by rewrite Hcm. }
  split; [by apply forward_unfold | by apply forward_calls_layers].
Qed.

(** When the embedding lookup raises, [forward] raises that exception and the
    decoder is untouched. *)
Lemma forward_embedding_error tokens mask input_pos self e :
  embedding (tok_embeddings self) tokens = Raise e ->
  forward tokens mask input_pos self = (self, Raise e).
Proof.
  intros Hemb. unfold forward, final_hidden_state. run_method. by rewrite Hemb.
Qed.

Lemma embedding_Raise (W : Tensor2) tokens e :
  embedding W tokens = Raise e -> exists msg, e = IndexError msg.
Proof.
  unfold embedding. run_method. unfold result_mbind, result_bind.
  destruct (traverse _ (tok_ids tokens)) as [d|e'] eqn:Ht; [done |].
  intros [= ->].
  apply traverse_Raise_inv in Ht as (row & _ & Hrow).
  apply traverse_Raise_inv in Hrow as (id & _ & Hid).
  unfold embedding_row in Hid.
  destruct (id <? 0)%Z; [injection Hid as <-; eauto |].
  destruct (data2 W !! Z.to_nat id); [done |]. injection Hid as <-. eauto.
Qed.

(** X4: the embedding lookup comes before the check of [input_pos].  With a
    causal mask and no [input_pos], the call raises the [ValueError] exactly
    when every token id is in the embedding table; with an id outside the
    table it raises the [IndexError] of the lookup instead.  Either way the
    decoder is untouched. *)
Theorem forward_value_error_iff_tokens_valid tokens mask self cm :
  causal_mask self = Some cm ->
  (forward tokens mask None self = (self, Raise (ValueError missing_input_pos)) <->
   is_ok (embedding (tok_embeddings self) tokens) = true) /\
  (is_ok (embedding (tok_embeddings self) tokens) = false ->
   exists msg, forward tokens mask None self = (self, Raise (IndexError msg))).
Proof.
  intros Hcm.
  destruct (embedding (tok_embeddings self) tokens) as [h|e] eqn:Hemb; simpl.
  - split; [| done]. split; [done | intros _].
    unfold forward, final_hidden_state, resolve_mask. run_method.
    by rewrite Hemb, Hcm.
  - rewrite (forward_embedding_error _ _ _ _ _ Hemb).
    destruct (embedding_Raise _ _ _ Hemb) as [msg ->].
    split; [split; [by intros [=] | done] | eauto].
Qed.

Lemma final_hidden_state_unfold tokens mask input_pos self :
  final_hidden_state tokens mask input_pos self =
    match embedding (tok_embeddings self) tokens with
    | Ok h =>
        match snd (resolve_mask mask input_pos self) with
        | Ok m => run_layers h m input_pos self
        | Raise e => (self, Raise e)
        end
    | Raise e => (self, Raise e)
    end.
Proof.
  unfold final_hidden_state. run_method.
  destruct (embedding (tok_embeddings self) tokens) as [h|e]; [| done].
  pose proof (resolve_mask_state mask input_pos self) as Hs.
  destruct (resolve_mask mask input_pos self) as [s [m|e]]; simpl in *; by subst.
Qed.

(** The chunk count plays no part before the output projection. *)
Lemma final_hidden_state_set_output_chunks n tokens mask input_pos self :
  final_hidden_state tokens mask input_pos (set_output_chunks n self) =
    let '(self', r) := final_hidden_state tokens mask input_pos self in
    (set_output_chunks n self', r).
Proof.
  rewrite !final_hidden_state_unfold. simpl.
  destruct (embedding (tok_embeddings self) tokens) as [h|e]; [| done].
  assert (snd (resolve_mask mask input_pos (set_output_chunks n self))
          = snd (resolve_mask mask input_pos self)) as ->.
  { unfold resolve_mask. run_method.
    destruct (causal_mask self) as [cm|]; [| done].
    destruct input_pos as [pos|]; [| done].
    destruct mask as [m|]; [done |].
    by destruct (getitem_None cm pos). }
  destruct (snd (resolve_mask mask input_pos self)) as [m|e]; [| done].
  rewrite !run_layers_unfold. unfold scale_embeddings. simpl.
  by destruct (for_layers _ _ (layers self)) as [ls [h'|e]].
Qed.

(** X5: chunking is a matter of the output only.  For every chunk count, the
    layers (and their caches) after [forward] are the ones a call without
    chunking leaves. *)
Theorem chunking_leaves_layers_alone n tokens mask input_pos self :
  layers (fst (forward tokens mask input_pos (set_output_chunks n self)))
  = layers (fst (forward tokens mask input_pos self)).
Proof.
  unfold forward. run_method.
  rewrite final_hidden_state_set_output_chunks.
  destruct (final_hidden_state tokens mask input_pos self) as [self' [h|e]]; [| done].
  pose proof (project_state h (set_output_chunks n self')) as H1.
  pose proof (project_state h self') as H2.
  destruct (project h (set_output_chunks n self')) as [s1 r1].
  destruct (project h self') as [s2 r2]. simpl in *. by subst.
Qed.

(** X6: a chunk count that is not positive disables chunking: [forward]
    returns what it returns for the count 0, a negative count included. *)
Theorem forward_nonpositive_chunks n tokens mask input_pos self :
  (n <= 0)%Z ->
  snd (forward tokens mask input_pos (set_output_chunks n self))
  = snd (forward tokens mask input_pos (set_output_chunks 0 self)).
Proof.
  intros Hn. unfold forward. run_method.
  rewrite !final_hidden_state_set_output_chunks.
  destruct (final_hidden_state tokens mask input_pos self) as [self' [h|e]]; [| done].
  unfold project. run_method.
  destruct (Z.ltb_spec 0 n); [lia |].
  by destruct (linear h (tok_embeddings self')).
Qed.

End LoopFacts.

(** ** Positions and the gathered mask *)

Lemma index_row_wrap (cm : list (list bool)) (p : Z) :
  (- Z.of_nat (length cm) <= p < Z.of_nat (length cm))%Z ->
  exists row,
    cm !! Z.to_nat (p mod Z.of_nat (length cm)) = Some row /\
    index_row cm p = Ok row.
Proof.
  intros Hp. unfold index_row.
  set (n := Z.of_nat (length cm)) in *.
  destruct (Z.ltb_spec p (- n)); [lia |].
  destruct (Z.leb_spec n p); [lia |]. simpl.
  assert ((if (p <? 0)%Z then (p + n)%Z else p) = (p mod n)%Z) as ->.
  { destruct (Z.ltb_spec p 0).
    - apply (Z.mod_unique_pos p n (-1)); lia.
    - symmetry. apply Z.mod_small. lia. }
  pose proof (Z.mod_pos_bound p n ltac:(lia)) as Hm.
  destruct (cm !! Z.to_nat (p mod n)) as [row|] eqn:Hrow; [by exists row |].
  apply lookup_ge_None in Hrow. lia.
Qed.

Lemma index_row_Raise (cm : list (list bool)) (p : Z) e :
  index_row cm p = Raise e -> exists msg, e = IndexError msg.
Proof.
  unfold index_row.
  destruct ((p <? - Z.of_nat (length cm)) || (Z.of_nat (length cm) <=? p))%Z.
  - intros [= <-]. eauto.
  - destruct (cm !! _); [done |]. intros [= <-]. eauto.
Qed.

Lemma index_row_out_of_bounds (cm : list (list bool)) (p : Z) :
  (p < - Z.of_nat (length cm) \/ Z.of_nat (length cm) <= p)%Z ->
  is_ok (index_row cm p) = false.
Proof.
  intros Hp. unfold index_row.
  destruct (Z.ltb_spec p (- Z.of_nat (length cm))); [done |].
  destruct (Z.leb_spec (Z.of_nat (length cm)) p); [done | lia].
Qed.

Lemma getitem_None_rows (g : Z -> list bool) (cm : list (list bool)) input_pos :
  Forall (fun p => index_row cm p = Ok (g p)) (positions_flat input_pos) ->
  getitem_None cm input_pos =
    Ok match input_pos with
       | Pos1D ps => Bool3D [map g ps]
       | Pos2D pss => Bool4D [map (map g) pss]
       end.
Proof.
  destruct input_pos as [ps|pss]; simpl; intros Hps.
  - by rewrite (traverse_total _ g).
  - rewrite (traverse_total _ (map g)); [done |].
    apply Forall_forall. intros ps Hin. apply traverse_total.
    apply Forall_forall. intros p Hp.
    rewrite Forall_forall in Hps. apply Hps.
    apply list_elem_of_In, in_concat. exists ps.
    split; by apply list_elem_of_In.
Qed.

(** The row that a position in [-L, L) selects from the lower triangle. *)
Lemma tril_index_row L (p : Z) :
  (- Z.of_nat L <= p < Z.of_nat L)%Z ->
  exists row,
    index_row (tril (ones L L)) p = Ok row /\
    length row = L /\
    forall j, (j < L)%nat ->
      row !! j = Some (bool_decide (j <= Z.to_nat (p mod Z.of_nat L))%nat).
Proof.
  intros Hp.
  destruct (tril_ones_lower_triangular L) as [Hlen Hrows].
  destruct (index_row_wrap (tril (ones L L)) p) as (row & Hrow & Hidx);
    [rewrite Hlen; lia |].
  rewrite Hlen in Hrow.
  pose proof (Z.mod_pos_bound p (Z.of_nat L) ltac:(lia)) as Hm.
  destruct (Hrows (Z.to_nat (p mod Z.of_nat L))) as (row' & Hrow' & Hl & Hcols); [lia |].
  assert (row' = row) as -> by congruence.
  by exists row.
Qed.

Section PositionFacts.
Context `{Layer}.

(** X7: [input_pos] is used as an index without a check of its range.  With
    the mask of [setup_caches], a position in [-max_seq_len, 0) counts from
    the end: position p selects row [p mod max_seq_len] of the causal mask,
    so that -1 attends to every column. *)
Theorem forward_positions_wrap tokens input_pos self (h : Tensor3) :
  mask_built self ->
  embedding (tok_embeddings self) tokens = Ok h ->
  Forall (fun p => (- max_seq_len self <= p < max_seq_len self)%Z)
         (positions_flat input_pos) ->
  let L := Z.to_nat (max_seq_len self) in
  exists m,
    forward tokens None (Some input_pos) self =
      (h' ← run_layers h (Some m) (Some input_pos); project h') self /\
    Forall2 (fun p row =>
               length row = L /\
               forall j, (j < L)%nat ->
                 row !! j = Some (bool_decide (j <= Z.to_nat (p mod max_seq_len self))%nat))
            (positions_flat input_pos) (mask_rows m).
Proof.
  intros Hb Hemb Hpos L.
  set (g := fun p : Z =>
              match index_row (tril (ones L L)) p with Ok row => row | Raise _ => [] end).
  assert (forall p, (- max_seq_len self <= p < max_seq_len self)%Z ->
            index_row (tril (ones L L)) p = Ok (g p) /\
            length (g p) = L /\
            forall j, (j < L)%nat ->
              g p !! j = Some (bool_decide (j <= Z.to_nat (p mod max_seq_len self))%nat))
    as Hg.
  { intros p Hp. destruct (tril_index_row L p) as (row & Hidx & Hl & Hcols); [lia |].
    unfold g. rewrite Hidx. replace (max_seq_len self) with (Z.of_nat L) by lia. done. }
  eexists. split.
  - apply forward_unfold; [done |].
    unfold resolve_mask. run_method. rewrite Hb. fold L.
    rewrite (getitem_None_rows g); [done |].
    eapply Forall_impl; [exact Hpos |]. intros p Hp. by apply Hg.
  - destruct input_pos as [ps|pss]; simpl in *.
    + rewrite app_nil_r. apply Forall2_fmap_r, Forall_Forall2_diag.
      eapply Forall_impl; [exact Hpos |]. intros p Hp. by apply Hg.
    + rewrite !app_nil_r, <- concat_map.
      apply Forall2_fmap_r, Forall_Forall2_diag.
      eapply Forall_impl; [exact Hpos |]. intros p Hp. by apply Hg.
Qed.

(** X8: a position outside [-max_seq_len, max_seq_len) is an [IndexError].
    It is raised where the mask is gathered, before any layer runs: the
    decoder and the caches of its layers are untouched. *)
Theorem forward_position_out_of_bounds tokens input_pos self cm (h : Tensor3) :
  causal_mask self = Some cm ->
  embedding (tok_embeddings self) tokens = Ok h ->
  Exists (fun p => (p < - Z.of_nat (length cm) \/ Z.of_nat (length cm) <= p)%Z)
         (positions_flat input_pos) ->
  exists msg,
    forward tokens None (Some input_pos) self = (self, Raise (IndexError msg)).
Proof.
  intros Hcm Hemb Hbad.
  assert (exists msg, getitem_None cm input_pos = Raise (IndexError msg)) as [msg Hget].
  { apply Exists_exists in Hbad as (p & Hin & Hp).
    apply index_row_out_of_bounds in Hp.
    destruct input_pos as [ps|pss]; simpl in *.
    - destruct (traverse (index_row cm) ps) as [rows|e] eqn:Ht.
      + apply traverse_Ok_inv in Ht.
        apply list_elem_of_lookup in Hin as [i Hi].
        destruct (Forall2_lookup_l _ _ _ _ _ Ht Hi) as (row & _ & Hrow).
        by rewrite Hrow in Hp.
      + apply traverse_Raise_inv in Ht as (p' & _ & Hp').
        apply index_row_Raise in Hp' as [msg ->]. by exists msg.
    - destruct (traverse (traverse (index_row cm)) pss) as [rows|e] eqn:Ht.
      + apply traverse_Ok_inv in Ht.
        apply list_elem_of_In, in_concat in Hin as (ps & Hps & Hin).
        apply list_elem_of_In, list_elem_of_lookup in Hps as [i Hi].
        destruct (Forall2_lookup_l _ _ _ _ _ Ht Hi) as (row & _ & Hrow).
        apply traverse_Ok_inv in Hrow.
        apply list_elem_of_In, list_elem_of_lookup in Hin as [k Hk].
        destruct (Forall2_lookup_l _ _ _ _ _ Hrow Hk) as (r & _ & Hr).
        by rewrite Hr in Hp.
      + apply traverse_Raise_inv in Ht as (ps & _ & Hps).
        apply traverse_Raise_inv in Hps as (p' & _ & Hp').
        apply index_row_Raise in Hp' as [msg ->]. by exists msg. }
  exists msg. unfold forward, final_hidden_state, resolve_mask. run_method.
  by rewrite Hemb, Hcm, Hget.
Qed.

(** X9: the shape the code comments on.  A 1-D [input_pos] of length n gives
    a mask of shape [1, n, max_seq_len]; a [b x s] one gives
    [1, b, s, max_seq_len]. *)
Theorem resolved_mask_shape input_pos self :
  mask_built self ->
  Forall (fun p => (- max_seq_len self <= p < max_seq_len self)%Z)
         (positions_flat input_pos) ->
  let L := Z.to_nat (max_seq_len self) in
  match input_pos with
  | Pos1D ps =>
      exists rows,
        resolve_mask None (Some input_pos) self = (self, Ok (Some (Bool3D [rows]))) /\
        length rows = length ps /\
        Forall (fun row => length row = L) rows
  | Pos2D pss =>
      exists rows,
        resolve_mask None (Some input_pos) self = (self, Ok (Some (Bool4D [rows]))) /\
        Forall2 (fun ps r => length r = length ps /\
                             Forall (fun row => length row = L) r) pss rows
  end.
Proof.
  intros Hb Hpos L.
  set (g := fun p : Z =>
              match index_row (tril (ones L L)) p with Ok row => row | Raise _ => [] end).
  assert (forall p, (- max_seq_len self <= p < max_seq_len self)%Z ->
            index_row (tril (ones L L)) p = Ok (g p) /\ length (g p) = L) as Hg.
  { intros p Hp. destruct (tril_index_row L p) as (row & Hidx & Hl & _); [lia |].
    unfold g. by rewrite Hidx. }
  assert (getitem_None (tril (ones L L)) input_pos =
            Ok match input_pos with
               | Pos1D ps => Bool3D [map g ps]
               | Pos2D pss => Bool4D [map (map g) pss]
               end) as Hget.
  { apply getitem_None_rows.
    eapply Forall_impl; [exact Hpos |]. intros p Hp. by apply Hg. }
  unfold resolve_mask. run_method. rewrite Hb. fold L. rewrite Hget.
  destruct input_pos as [ps|pss]; simpl in *.
  - eexists. split; [done |]. split; [by rewrite length_map |].
    apply Forall_forall. intros row Hrow.
    apply list_elem_of_In, in_map_iff in Hrow as (p & <- & Hp).
    rewrite Forall_forall in Hpos. by apply Hg, Hpos, list_elem_of_In.
  - eexists. split; [done |].
    apply Forall2_fmap_r, Forall_Forall2_diag, Forall_forall.
    intros ps Hps. split; [by rewrite length_map |].
    apply Forall_forall. intros row Hrow.
    apply list_elem_of_In, in_map_iff in Hrow as (p & <- & Hp).
    rewrite Forall_forall in Hpos. apply Hg, Hpos.
    apply list_elem_of_In, in_concat. exists ps. split; [by apply list_elem_of_In | done].
Qed.

End PositionFacts.

(** ** [setup_caches], [caches_are_setup] and the life of the object *)

Section LifecycleFacts.
Context `{Layer}.

(** What [setup_caches] does to the fields other than the layers and the
    mask, however it ends. *)
Lemma setup_caches_config b dt enc dec self :
  let self' := fst (setup_caches b dt enc dec self) in
  tok_embeddings self' = tok_embeddings self /\
  num_output_chunks self' = num_output_chunks self /\
  norm_embeddings self' = norm_embeddings self /\
  encoder_max_seq_len self'
    = match enc with Some n => Some n | None => encoder_max_seq_len self end /\
  decoder_max_seq_len self'
    = match dec with Some n => Some n | None => decoder_max_seq_len self end.
Proof.
  unfold setup_caches, on_layers. run_method.
  destruct enc as [e|], dec as [d|]; simpl;
    destruct (for_layers _ tt (layers self)) as [ls [[]|err]]; simpl;
    try destruct (build_causal_mask (max_seq_len self)); simpl; done.
Qed.

Lemma setup_caches_ok_inv b dt enc dec self :
  snd (setup_caches b dt enc dec self) = Ok tt ->
  (0 <= max_seq_len self)%Z /\
  Forall (fun l => snd (layer_setup_caches b dt enc dec l) = Ok tt) (layers self).
Proof.
  pose proof (setup_caches_spec b dt enc dec self) as (_ & _ & Hm).
  intros Hok.
  destruct (for_layers _ tt (layers self)) as [ls [[]|e]] eqn:Hloop; simpl in Hm.
  - destruct (build_causal_mask (max_seq_len self)) as [m|e] eqn:Hb.
    + apply build_causal_mask_ok in Hb as [HL _]. split; [done |].
      by eapply for_layers_unit_inv.
    + destruct Hm as [_ Hr]. congruence.
  - destruct Hm as [_ Hr]. congruence.
Qed.

(** X10: [setup_caches] returns exactly when [max_seq_len] is not negative and
    every layer accepts the arguments. *)
Theorem setup_caches_returns_iff b dt enc dec self :
  snd (setup_caches b dt enc dec self) = Ok tt <->
  (0 <= max_seq_len self)%Z /\
  Forall (fun l => snd (layer_setup_caches b dt enc dec l) = Ok tt) (layers self).
Proof.
  split; [apply setup_caches_ok_inv |].
  intros [HL Hls].
  pose proof (setup_caches_spec b dt enc dec self) as (_ & _ & Hm).
  rewrite (for_layers_unit _ _ Hls) in Hm. simpl in Hm.
  unfold build_causal_mask in Hm. destruct (Z.ltb_spec (max_seq_len self) 0); [lia |].
  by destruct Hm.
Qed.

(** X11: a [setup_caches] that returned has called [setup_caches] of every
    layer, once, with the arguments it was given itself: the layers after the
    call are the layers these calls left, in the same order. *)
Theorem setup_caches_sets_up_every_layer b dt enc dec self self' :
  setup_caches b dt enc dec self = (self', Ok tt) ->
  layers self' = map (fun l => fst (layer_setup_caches b dt enc dec l)) (layers self).
Proof.
  intros Hs.
  pose proof (setup_caches_ok_inv b dt enc dec self) as Hinv.
  rewrite Hs in Hinv. destruct (Hinv eq_refl) as [_ Hls].
  pose proof (setup_caches_spec b dt enc dec self) as (Hl & _).
  rewrite Hs in Hl. simpl in Hl. by rewrite Hl, (for_layers_unit _ _ Hls).
Qed.

(** X12: [setup_caches] is not atomic either.  When layer k rejects the
    arguments, the call raises the exception of the layer: the layers before
    k are set up, the layers after k are not, no causal mask is built, and the
    length attributes have been recorded all the same. *)
Theorem setup_caches_layer_failure b dt enc dec self pre l post e :
  layers self = pre ++ l :: post ->
  Forall (fun l => snd (layer_setup_caches b dt enc dec l) = Ok tt) pre ->
  snd (layer_setup_caches b dt enc dec l) = Raise e ->
  let self' := fst (setup_caches b dt enc dec self) in
  snd (setup_caches b dt enc dec self) = Raise e /\
  layers self'
    = map (fun l => fst (layer_setup_caches b dt enc dec l)) pre
      ++ fst (layer_setup_caches b dt enc dec l) :: post /\
  causal_mask self' = causal_mask self /\
  encoder_max_seq_len self'
    = match enc with Some n => Some n | None => encoder_max_seq_len self end /\
  decoder_max_seq_len self'
    = match dec with Some n => Some n | None => decoder_max_seq_len self end.
Proof.
  intros Hls Hpre Hl self'.
  pose proof (setup_caches_spec b dt enc dec self) as (Hlayers & _ & Hm).
  pose proof (setup_caches_config b dt enc dec self) as (_ & _ & _ & Henc & Hdec).
  rewrite Hls, for_layers_app, (for_layers_unit _ _ Hpre) in Hlayers, Hm.
  simpl in Hlayers, Hm.
  destruct (layer_setup_caches b dt enc dec l) as [l' r]. simpl in *. subst r.
  simpl in *. destruct Hm as [Hcm Hr]. done.
Qed.

(** X13: the mask is built last.  With a negative [max_seq_len] every layer
    is set up and only then the call raises a [RuntimeError]; the causal mask
    stays what it was. *)
Theorem setup_caches_negative_max_seq_len b dt enc dec self :
  (max_seq_len self < 0)%Z ->
  Forall (fun l => snd (layer_setup_caches b dt enc dec l) = Ok tt) (layers self) ->
  let self' := fst (setup_caches b dt enc dec self) in
  (exists msg, snd (setup_caches b dt enc dec self) = Raise (RuntimeError msg)) /\
  layers self' = map (fun l => fst (layer_setup_caches b dt enc dec l)) (layers self) /\
  causal_mask self' = causal_mask self.
Proof.
  intros HL Hls self'.
  pose proof (setup_caches_spec b dt enc dec self) as (Hlayers & _ & Hm).
  rewrite (for_layers_unit _ _ Hls) in Hlayers, Hm. simpl in Hlayers, Hm.
  unfold build_causal_mask in Hm. destruct (Z.ltb_spec (max_seq_len self) 0); [| lia].
  destruct Hm as [Hcm Hr]. split; [eauto | done].
Qed.

(** X14: a decoder built with [num_layers <= 0] has no layer, and
    [caches_are_setup], which looks at layer 0, raises an [IndexError]. *)
Theorem caches_are_setup_without_layers tok layer num_layers max_len heads hdim
    nrm norm_emb :
  (num_layers <= 0)%Z ->
  let self := init tok layer num_layers max_len heads hdim nrm norm_emb in
  layers self = [] /\
  exists msg, caches_are_setup self = (self, Raise (IndexError msg)).
Proof.
  intros Hn self. unfold self, init, _get_clones, caches_are_setup. run_method.
  replace (Z.to_nat num_layers) with 0%nat by lia. simpl. eauto.
Qed.

(** X15: [chunked_output] is of no use before [set_num_output_chunks]: with a
    chunk count that is not positive (0 after construction) it raises. *)
Theorem chunked_output_needs_chunks (h : Tensor3) self :
  (num_output_chunks self <= 0)%Z ->
  exists msg, chunked_output h self = (self, Raise (RuntimeError msg)).
Proof.
  intros HC. unfold chunked_output, chunk1. run_method.
  destruct (Z.leb_spec (num_output_chunks self) 0); [| lia]. eauto.
Qed.

Lemma run_call_config c self :
  let self' := fst (run_call c self) in
  tok_embeddings self' = tok_embeddings self /\
  norm_embeddings self' = norm_embeddings self /\
  length (layers self') = length (layers self) /\
  (causal_mask self <> None -> causal_mask self' <> None).
Proof.
  destruct c as [|n|b dt enc dec|h|tokens mask input_pos]; simpl.
  - pose proof (caches_are_setup_state self).
    destruct (caches_are_setup self); simpl in *; by subst.
  - done.
  - pose proof (setup_caches_spec b dt enc dec self) as (Hl & _ & Hm).
    pose proof (setup_caches_config b dt enc dec self) as (HW & _ & Hn & _).
    pose proof (for_layers_length (fun _ => layer_setup_caches b dt enc dec) tt
                  (layers self)) as Hlen.
    destruct (setup_caches b dt enc dec self) as [self' r]. simpl in *.
    split; [done |]. split; [done |]. split; [by rewrite Hl |].
    destruct (snd (for_layers _ tt (layers self))) as [[]|e];
      [destruct (build_causal_mask (max_seq_len self)) |];
      destruct Hm as [-> _]; done.
  - pose proof (chunked_output_state h self).
    destruct (chunked_output h self); simpl in *; by subst.
  - destruct (forward_state tokens mask input_pos self) as (ls & Hs & Hlen & _).
    destruct (forward tokens mask input_pos self); simpl in *; by subst.
Qed.

(** X16: over any sequence of calls of the public methods the decoder keeps
    its embedding weight, its scaling flag and the number of its layers. *)
Theorem public_calls_keep_structure cs self :
  tok_embeddings (run_calls cs self) = tok_embeddings self /\
  norm_embeddings (run_calls cs self) = norm_embeddings self /\
  length (layers (run_calls cs self)) = length (layers self).
Proof.
  revert self. induction cs as [|c cs IH]; intros self; simpl; [done |].
  destruct (IH (fst (run_call c self))) as (HW & Hn & Hl).
  destruct (run_call_config c self) as (HW' & Hn' & Hl' & _).
  rewrite HW, Hn, Hl. done.
Qed.

(** X17: no public method takes the causal mask away.  Once it is stored, the
    decoder stays in cached mode whatever is called afterwards. *)
Theorem causal_mask_is_never_cleared cs self :
  causal_mask self <> None -> causal_mask (run_calls cs self) <> None.
Proof.
  revert self. induction cs as [|c cs IH]; intros self Hcm; simpl; [done |].
  apply IH. by apply (run_call_config c self).
Qed.

End LifecycleFacts.

(** ** Chunks of any length *)

Lemma concat_replicate_nil {A} n : concat (replicate n (@nil A)) = [].
Proof. induction n as [|n IH]; [done |]. done. Qed.

(** The pieces of [chunk] are consecutive and cover the axis: cutting a list
    along them and joining the parts gives the list back. *)
Lemma chunk_pieces_cover {A} (l : list A) c :
  (0 < c)%nat ->
  concat (map (fun p => take (snd p) (drop (fst p) l)) (chunk_pieces (length l) c)) = l.
Proof.
  intros Hc. unfold chunk_pieces.
  set (s := length l). set (k := ((s + c - 1) / c)%nat).
  pose proof (Nat.div_mod_eq (s + c - 1) c) as Hk. fold k in Hk.
  pose proof (Nat.mod_upper_bound (s + c - 1) c ltac:(lia)) as Hr.
  destruct (Nat.eqb_spec k 0) as [Hk0 | Hk0].
  - assert (s = 0%nat) as Hs by nia.
    rewrite map_replicate. simpl. rewrite firstn_O, concat_replicate_nil.
    symmetry. by apply nil_length_inv.
  - set (n := ((s + k - 1) / k)%nat).
    pose proof (Nat.div_mod_eq (s + k - 1) k) as Hn. fold n in Hn.
    pose proof (Nat.mod_upper_bound (s + k - 1) k Hk0) as Hr'.
    assert (1 <= n)%nat as Hn1 by nia.
    rewrite Nat.max_l by lia. rewrite map_map. simpl.
    replace n with (S (n - 1)) at 1 by lia.
    rewrite seq_S, map_app, concat_app. simpl. rewrite app_nil_r.
    rewrite (map_ext_in _ (fun i => take k (drop (i * k) l))).
    2:{ intros i Hi. apply in_seq in Hi.
        by destruct (Nat.ltb_spec i (n - 1)); [| lia]. }
    rewrite concat_take_drop.
    destruct (Nat.ltb_spec (n - 1) (n - 1)); [lia |].
    rewrite take_take_drop. apply take_ge. fold s. nia.
Qed.

Lemma chunk_pieces_sum s c :
  (0 < c)%nat -> sum_list (map snd (chunk_pieces s c)) = s /\ chunk_pieces s c <> [].
Proof.
  intros Hc.
  destruct (chunk_pieces_lengths s c Hc) as (n & last & Hp & Hn & Hl & Hs).
  split.
  - rewrite Hp, sum_list_with_app, sum_list_replicate. simpl. lia.
  - intros Hnil. rewrite Hnil in Hp. simpl in Hp. by destruct (replicate _ _).
Qed.

Section ChunkFacts.
Context `{Layer}.

(** Joining the slices along pieces that cover the sequence axis gives the
    tensor back. *)
Lemma cat1_pieces (full : Tensor3) ps :
  ps <> [] ->
  length (data3 full) = size0 full ->
  Forall (fun rows => concat (map (fun p => take (snd p) (drop (fst p) rows)) ps) = rows)
         (data3 full) ->
  sum_list (map snd ps) = size1 full ->
  cat1 (map (fun p => narrow1 full (fst p) (snd p)) ps) = Ok full.
Proof.
  intros Hne Hlen Hrows Hs.
  remember (map (fun p => narrow1 full (fst p) (snd p)) ps) as outs eqn:Houts.
  assert (forall u, In u outs -> exists a b, u = narrow1 full a b) as Hall.
  { subst outs. intros u Hu. apply in_map_iff in Hu as ([a b] & <- & _). eauto. }
  destruct outs as [|t rest]; [by destruct ps |].
  unfold cat1.
  destruct (Hall t (or_introl eq_refl)) as (a0 & b0 & Ht).
  assert (forallb (fun u => bool_decide (dtype3 u = dtype3 t)
                            && (size0 u =? size0 t)%nat
                            && (size2 u =? size2 t)%nat) (t :: rest) = true) as ->.
  { apply forallb_forall. intros u Hu. destruct (Hall u Hu) as (a & b & ->). subst t.
    simpl. rewrite bool_decide_eq_true_2 by done. by rewrite !Nat.eqb_refl. }
  rewrite Houts. subst t. clear Houts Hall.
  destruct full as [dt n0 n1 n2 d]. simpl in *. do 2 f_equal.
  - by rewrite map_map.
  - rewrite <- Hlen. etransitivity; [| apply (map_lookup_seq [] d)].
    apply map_ext_in. intros b Hb. apply in_seq in Hb.
    destruct (d !! b) as [rows|] eqn:Hd; [| apply lookup_ge_None in Hd; lia].
    simpl. rewrite map_map. simpl.
    rewrite (map_ext _ (fun p => take (snd p) (drop (fst p) rows)))
      by (intros q; simpl; by rewrite lookup_map, Hd).
    rewrite Forall_forall in Hrows. apply Hrows.
    eapply list_elem_of_lookup_2. exact Hd.
Qed.

(** The chunks of any positive count are slices of the full projection that
    join up to it. *)
Lemma chunked_output_joins (h : Tensor3) self :
  wf_tensor3 h = true ->
  dtype3 h = dtype2 (tok_embeddings self) ->
  size2 h = cols2 (tok_embeddings self) ->
  (0 < num_output_chunks self)%Z ->
  exists outs full,
    chunked_output h self = (self, Ok outs) /\
    linear h (tok_embeddings self) = Ok full /\
    cat1 outs = Ok full.
Proof.
  intros Hwf Hd Hs HC.
  pose proof (linear_ok h _ Hd Hs) as Hfull.
  set (full := {| dtype3 := dtype3 h |}) in Hfull.
  destruct (wf_tensor3_spec h Hwf) as [Hlen Hrows].
  set (c := Z.to_nat (num_output_chunks self)).
  assert (0 < c)%nat as Hc by lia.
  destruct (chunk_pieces_sum (size1 h) c Hc) as [Hsum Hne].
  eexists _, full. split; [by apply chunked_output_pieces |].
  split; [done |]. fold c.
  apply cat1_pieces; simpl; [done | by rewrite length_map | | done].
  apply Forall_forall. intros rows Hin.
  apply list_elem_of_In, in_map_iff in Hin as (rows' & <- & Hin').
  rewrite Forall_forall in Hrows.
  rewrite <- (Hrows rows') by (by apply list_elem_of_In).
  rewrite <- (length_map (fun v => map (dot (dtype3 h) v) (data2 (tok_embeddings self)))).
  by apply chunk_pieces_cover.
Qed.

(** X18: no position is lost or doubled by chunking, whether the chunk count
    divides the sequence length or not: for every count C > 0 the
    concatenation of the tensors of [chunked_output] along the sequence axis
    is [F.linear(h, weight)]. *)
Theorem chunked_output_concat_any_count (h : Tensor3) self :
  wf_tensor3 h = true ->
  dtype3 h = dtype2 (tok_embeddings self) ->
  size2 h = cols2 (tok_embeddings self) ->
  (0 < num_output_chunks self)%Z ->
  exists outs full,
    chunked_output h self = (self, Ok outs) /\
    linear h (tok_embeddings self) = Ok full /\
    cat1 outs = Ok full.
Proof. apply chunked_output_joins. Qed.

(** X19: the two ways of calling [forward] agree.  When the layers and the
    normalisation ran, a call with C > 0 chunks returns tensors whose
    concatenation is the tensor that a call with chunking disabled converts
    with [.float()] and returns; both calls leave the same layers. *)
Theorem forward_chunked_matches_unchunked C tokens mask input_pos self self'
    (h : Tensor3) :
  final_hidden_state tokens mask input_pos self = (self', Ok h) ->
  wf_tensor3 h = true ->
  dtype3 h = dtype2 (tok_embeddings self) ->
  size2 h = cols2 (tok_embeddings self) ->
  (0 < C)%Z ->
  exists outs full,
    forward tokens mask input_pos (set_output_chunks C self)
      = (set_output_chunks C self', Ok (ChunkedLogits outs)) /\
    forward tokens mask input_pos (set_output_chunks 0 self)
      = (set_output_chunks 0 self', Ok (Logits (float full))) /\
    cat1 outs = Ok full.
Proof.
  intros Hh Hwf Hd Hs HC.
  destruct (final_hidden_state_state tokens mask input_pos self) as (ls & Hst & _).
  rewrite Hh in Hst. simpl in Hst.
  assert (tok_embeddings self' = tok_embeddings self) as HW by (by subst self').
  rewrite <- HW in Hd, Hs.
  destruct (chunked_output_joins h (set_output_chunks C self') Hwf Hd Hs HC)
    as (outs & full & Hout & Hfull & Hcat).
  simpl in Hfull.
  exists outs, full. split; [| split; [| done]].
  - unfold forward. run_method.
    rewrite final_hidden_state_set_output_chunks, Hh.
    unfold project. run_method.
    destruct (Z.ltb_spec 0 C); [| lia]. by rewrite Hout.
  - unfold forward. run_method.
    rewrite final_hidden_state_set_output_chunks, Hh.
    by apply project_unchunked.
Qed.

End ChunkFacts.

(** * Properties of [compile_model] *)

Section CompileFacts.
Import Compile.

Lemma is_attention_layer_class (o o' : nn_module) :
  class_of o' = class_of o -> is_attention_layer o' = is_attention_layer o.
Proof. unfold is_attention_layer. by intros ->. Qed.

Lemma compile_if_attention_spec backend w x :
  let w1 := compile_if_attention backend w x in
  environ w1 = environ w /\
  log w1 = log w /\
  (compiled_count w <= compiled_count w1)%nat /\
  forall id,
    match heap w !! id with
    | Some o =>
        if bool_decide (id = x) && is_attention_layer o
        then heap w1 !! id
               = Some {| class_of := class_of o;
                         compiled_call_impl :=
                           Some (mkCompiled backend (compiled_count w)) |} /\
             compiled_count w1 = S (compiled_count w)
        else heap w1 !! id = Some o
    | None => heap w1 !! id = None
    end.
Proof.
  unfold compile_if_attention.
  destruct (heap w !! x) as [m|] eqn:Hx.
  - destruct (is_attention_layer m) eqn:Hm; simpl.
    + split; [done |]. split; [done |]. split; [lia |]. intros id.
      destruct (decide (id = x)) as [-> | Hne].
      * rewrite Hx, bool_decide_eq_true_2, Hm by done. simpl.
        by rewrite lookup_insert_eq.
      * rewrite lookup_insert_ne by done.
        destruct (heap w !! id) as [o|]; [| done].
        by rewrite bool_decide_eq_false_2.
    + split; [done |]. split; [done |]. split; [lia |]. intros id.
      destruct (heap w !! id) as [o|] eqn:Hid; [| done].
      case_bool_decide as Heq; [| done]. subst id.
      assert (o = m) as -> by congruence. by rewrite Hm.
  - split; [done |]. split; [done |]. split; [lia |]. intros id.
    destruct (heap w !! id) as [o|] eqn:Hid; [| done].
    case_bool_decide as Heq; [| done]. subst id. congruence.
Qed.

Lemma compile_loop_spec backend ids w :
  let w' := foldl (compile_if_attention backend) w ids in
  environ w' = environ w /\
  log w' = log w /\
  (compiled_count w <= compiled_count w')%nat /\
  forall id, compiled_by_loop backend ids w w' id.
Proof.
  revert w. induction ids as [|x ids IH]; intros w; simpl.
  - split; [done |]. split; [done |]. split; [lia |]. intros id.
    unfold compiled_by_loop. destruct (heap w !! id) as [o|]; [| done].
    by rewrite bool_decide_eq_false_2 by (apply not_elem_of_nil).
  - destruct (compile_if_attention_spec backend w x) as (He1 & Hl1 & Hc1 & Hh1).
    destruct (IH (compile_if_attention backend w x)) as (He & Hl & Hc & Hh).
    split; [by rewrite He, He1 |]. split; [by rewrite Hl, Hl1 |]. split; [lia |].
    intros id. specialize (Hh1 id). specialize (Hh id).
    unfold compiled_by_loop in *.
    destruct (heap w !! id) as [o|]; [| by rewrite Hh1 in Hh].
    destruct (decide (id = x)) as [-> | Hne].
    + rewrite (bool_decide_eq_true_2 (x = x)) in Hh1 by done.
      rewrite (bool_decide_eq_true_2 (x ∈ x :: ids)) by (by left).
      destruct (is_attention_layer o) eqn:Ho; simpl in *.
      * destruct Hh1 as [Hh1 Hcount]. rewrite Hh1 in Hh.
        rewrite (is_attention_layer_class o) in Hh by done. rewrite Ho in Hh.
        destruct (bool_decide (x ∈ ids)); simpl in Hh.
        -- destruct Hh as (k & Hk & Hrange). exists k. split; [done | lia].
        -- exists (compiled_count w). split; [done | lia].
      * rewrite Hh1, Ho in Hh. by destruct (bool_decide (x ∈ ids)).
    + rewrite (bool_decide_eq_false_2 (id = x)) in Hh1 by done. simpl in Hh1.
      rewrite Hh1 in Hh.
      assert (bool_decide (id ∈ x :: ids) = bool_decide (id ∈ ids)) as ->.
      { apply bool_decide_ext. rewrite elem_of_cons. naive_solver. }
      destruct (bool_decide (id ∈ ids) && is_attention_layer o); [| done].
      destruct Hh as (k & Hk & Hrange). exists k. split; [done | lia].
Qed.

Lemma compile_model_spec m verbose w :
  let w' := compile_model m verbose w in
  environ w' = environ w /\
  log w' = (if verbose then log w ++ [compiling_layers] else log w) /\
  (compiled_count w <= compiled_count w')%nat /\
  forall id, compiled_by_loop (get_backend w) (modules (compiled_part m)) w w' id.
Proof.
  unfold compile_model. fold (compiled_part m).
  set (w0 := if verbose then log_info compiling_layers w else w).
  destruct (compile_loop_spec (get_backend w) (reverse (modules (compiled_part m))) w0)
    as (He & Hl & Hc & Hh).
  assert (environ w0 = environ w /\ heap w0 = heap w /\
          compiled_count w0 = compiled_count w /\
          log w0 = if verbose then log w ++ [compiling_layers] else log w)
    as (He0 & Hh0 & Hc0 & Hl0) by (unfold w0; by destruct verbose).
  split; [by rewrite He, He0 |]. split; [by rewrite Hl, Hl0 |]. split; [lia |].
  intros id. specialize (Hh id). unfold compiled_by_loop in *.
  rewrite Hh0, Hc0 in Hh.
  destruct (heap w !! id) as [o|]; [| done].
  assert (bool_decide (id ∈ reverse (modules (compiled_part m)))
          = bool_decide (id ∈ modules (compiled_part m))) as <-; [| done].
  apply bool_decide_ext, elem_of_reverse.
Qed.

(** The log plays no part in the loop. *)
Lemma compile_loop_log backend msg ids w :
  foldl (compile_if_attention backend) (log_info msg w) ids
  = log_info msg (foldl (compile_if_attention backend) w ids).
Proof.
  revert w. induction ids as [|x ids IH]; intros w; simpl; [done |].
  rewrite <- IH. f_equal.
  unfold compile_if_attention. simpl.
  destruct (heap w !! x) as [o|]; [| done].
  by destruct (is_attention_layer o).
Qed.

(** X20: [compile_model] compiles the attention layers and nothing else.  A
    module gets a newly built callable, for the backend named by
    TORCH_COMPILE_BACKEND ("inductor" when it is not set), exactly when it is
    among the modules of the model (of the decoder, for a fusion model) and a
    self-attention or cross-attention layer; every other module of the heap is
    what it was. *)
Theorem compile_model_compiles_attention_layers m verbose w id o :
  heap w !! id = Some o ->
  let w' := compile_model m verbose w in
  if bool_decide (id ∈ modules (compiled_part m)) && is_attention_layer o
  then exists k,
         heap w' !! id
           = Some {| class_of := class_of o;
                     compiled_call_impl :=
                       Some {| callable_backend :=
                                 default "inductor"
                                         (environ w !! "TORCH_COMPILE_BACKEND");
                               callable_serial := k |} |} /\
         (compiled_count w <= k < compiled_count w')%nat
  else heap w' !! id = Some o.
Proof.
  intros Ho w'. destruct (compile_model_spec m verbose w) as (_ & _ & _ & Hh).
  specialize (Hh id). unfold compiled_by_loop in Hh. by rewrite Ho in Hh.
Qed.

(** X21: of a fusion model only the decoder is compiled: a module that is not
    among the modules of the decoder (the fusion model itself, its encoder and
    the layers of the encoder) is left as it was. *)
Theorem compile_model_fusion_only_decoder ms decoder verbose w id :
  id ∉ modules decoder ->
  heap (compile_model (DeepFusionModel ms decoder) verbose w) !! id = heap w !! id.
Proof.
  intros Hid.
  destruct (compile_model_spec (DeepFusionModel ms decoder) verbose w)
    as (_ & _ & _ & Hh).
  specialize (Hh id). unfold compiled_by_loop in Hh. simpl in Hh.
  destruct (heap w !! id) as [o|]; [| done].
  by rewrite bool_decide_eq_false_2 in Hh.
Qed.

(** X22: [verbose] decides on one line of the log and on nothing else: the
    modules and the environment after the call do not depend on it. *)
Theorem compile_model_verbose_only_logs m w :
  heap (compile_model m true w) = heap (compile_model m false w) /\
  environ (compile_model m true w) = environ (compile_model m false w) /\
  log (compile_model m true w) = log (compile_model m false w) ++ [compiling_layers].
Proof.
  unfold compile_model. simpl.
  assert (get_backend (log_info compiling_layers w) = get_backend w) as Hb by done.
  by rewrite compile_loop_log.
Qed.

(** X23: compiling a second time is not a no-op.  The second call compiles
    the same modules, for the same backend, and nothing else, but every
    attention layer of the model gets a callable built anew, in the place of
    the one of the first call. *)
Theorem compile_model_twice m verbose verbose' w id o :
  heap w !! id = Some o ->
  let w1 := compile_model m verbose w in
  let w2 := compile_model m verbose' w1 in
  if bool_decide (id ∈ modules (compiled_part m)) && is_attention_layer o
  then exists k1 k2,
         heap w1 !! id
           = Some {| class_of := class_of o;
                     compiled_call_impl := Some (mkCompiled (get_backend w) k1) |} /\
         heap w2 !! id
           = Some {| class_of := class_of o;
                     compiled_call_impl := Some (mkCompiled (get_backend w) k2) |} /\
         (k1 < k2)%nat
  else heap w1 !! id = Some o /\ heap w2 !! id = Some o.
Proof.
  intros Ho w1 w2.
  destruct (compile_model_spec m verbose w) as (He1 & _ & _ & Hh1).
  destruct (compile_model_spec m verbose' w1) as (_ & _ & _ & Hh2).
  fold w1 in He1, Hh1. fold w2 in Hh2.
  assert (get_backend w1 = get_backend w) as Hb
    by (unfold get_backend; by rewrite He1).
  rewrite Hb in Hh2.
  specialize (Hh1 id). specialize (Hh2 id). unfold compiled_by_loop in *.
  rewrite Ho in Hh1.
  destruct (bool_decide (id ∈ modules (compiled_part m))) eqn:Hin; simpl in *.
  - destruct (is_attention_layer o) eqn:Hatt.
    + destruct Hh1 as (k1 & Hk1 & Hr1). rewrite Hk1 in Hh2.
      rewrite (is_attention_layer_class o), Hatt in Hh2 by done. simpl in Hh2.
      destruct Hh2 as (k2 & Hk2 & Hr2). exists k1, k2.
      split; [done |]. split; [done | lia].
    + rewrite Hh1, Hatt in Hh2. done.
  - rewrite Hh1 in Hh2. done.
Qed.

End CompileFacts.

(** * The concrete decoder: the scenarios of the specification *)

Import Scenario.

Lemma recorder_contract : @LayerContract ZNumeric RecorderLayer.
Proof.
  constructor.
  - intros b dt enc dec l l'. simpl. unfold recorder_setup.
    destruct dec; [| done]. by intros [= <-].
  - done.
  - intros h m p l l' h'. simpl. unfold recorder_forward. by intros [= _ <-].
Qed.

Lemma identity_norm_shape : shape_preserving identity_norm.
Proof. intros h h'. unfold identity_norm. by intros [= <-]. Qed.


(** The scenario of the specification: after [setup_caches], one token at
    position 3.  Both layers were called once, with row 3 of the causal mask;
    the logits are float32 of shape [1, 1, 100]. *)
Example forward_one_token_at_3 :
  let row3 := replicate 4 true ++ replicate 12 false in
  let r := forward tokens_1x1 None (Some (Pos2D [[3%Z]])) spec_decoder in
  output_summary (snd r) = Some [((1, 1, 100)%nat, float32)] /\
  map rec_calls (layers (fst r))
    = replicate 2 [(Some (Bool4D [[[row3]]]), Some (Pos2D [[3%Z]]))].
Proof. by vm_compute. Qed.

(** seq_len = 5 with 4 chunks: three tensors come back. *)
Example forward_5_in_4_chunks :
  output_summary (snd (forward tokens_1x5 None None (chunked bfloat16 4)))
    = Some [((1, 2, 6)%nat, bfloat16); ((1, 2, 6)%nat, bfloat16);
            ((1, 1, 6)%nat, bfloat16)].
Proof. by vm_compute. Qed.

(** A position outside the mask is an [IndexError], a negative one counts from
    the end. *)
Example forward_position_out_of_range :
  snd (forward tokens_1x1 None (Some (Pos1D [16%Z])) (cached float32))
    = Raise (IndexError "index out of bounds") /\
  getitem_None (tril (ones 16 16)) (Pos1D [(-1)%Z]) = Ok (Bool3D [[replicate 16 true]]).
Proof. split; by vm_compute. Qed.

Lemma forward_cached_mask_is_gather_witness :
  let self := cached float32 in
  let input_pos := Pos2D [[3%Z]] in
  exists h,
    mask_built self /\
    embedding (tok_embeddings self) tokens_1x1 = Ok h /\
    Forall (fun p => (0 <= p < max_seq_len self)%Z) (positions_flat input_pos) /\
    exists m,
      getitem_None (tril (ones 16 16)) input_pos = Ok m /\
      forward tokens_1x1 None (Some input_pos) self =
        (h' ← run_layers h (Some m) (Some input_pos); project h') self /\
      (exists ls r,
          layers_called_with (Some m) (Some input_pos)
            (scale_embeddings self h) (layers self) ls r /\
          forward tokens_1x1 None (Some input_pos) self = after_layers ls r self) /\
      Forall2 (fun p row =>
                 tril (ones 16 16) !! Z.to_nat p = Some row /\
                 length row = 16%nat /\
                 forall j, (j < 16)%nat ->
                   row !! j = Some (bool_decide (j <= Z.to_nat p)%nat))
              (positions_flat input_pos) (mask_rows m).
Proof.
  intros self input_pos.
  assert (mask_built self) as Hb by reflexivity.
  assert (Forall (fun p => (0 <= p < max_seq_len self)%Z) (positions_flat input_pos))
    as Hpos by (constructor; [split; [discriminate | reflexivity] | constructor]).
  eexists. split; [exact Hb |]. split; [reflexivity |]. split; [exact Hpos |].
  exact (forward_cached_mask_is_gather tokens_1x1 input_pos self _ Hb eq_refl Hpos).
Defined.

(** What the layers of the concrete decoder recorded in that call: one call
    each, with row 3 of the causal mask. *)
Example forward_cached_mask_recorded :
  let input_pos := Pos2D [[3%Z]] in
  let row3 := replicate 4 true ++ replicate 12 false in
  map rec_calls (layers (fst (forward tokens_1x1 None (Some input_pos) (cached float32))))
  = replicate 2 [(Some (Bool4D [[[row3]]]), Some input_pos)].
Proof. by vm_compute. Qed.

Lemma forward_requires_input_pos_witness :
  let self := cached float32 in
  exists cm h,
    causal_mask self = Some cm /\
    embedding (tok_embeddings self) tokens_1x1 = Ok h /\
    forward tokens_1x1 (Some some_mask) None self
      = (self, Raise (ValueError missing_input_pos)).
Proof.
  intros self. eexists _, _. split; [reflexivity |]. split; [reflexivity |].
  exact (forward_requires_input_pos tokens_1x1 (Some some_mask) self _ _ eq_refl eq_refl).
Defined.

Lemma forward_rejects_explicit_mask_witness :
  let self := cached float32 in
  exists cm h,
    causal_mask self = Some cm /\
    embedding (tok_embeddings self) tokens_1x1 = Ok h /\
    forward tokens_1x1 (Some some_mask) (Some (Pos1D [3%Z])) self
      = (self, Raise (ValueError mask_was_set)).
Proof.
  intros self. eexists _, _. split; [reflexivity |]. split; [reflexivity |].
  exact (forward_rejects_explicit_mask tokens_1x1 some_mask (Some (Pos1D [3%Z])) self
           _ _ eq_refl eq_refl).
Defined.

Lemma rejected_forward_leaves_state_witness :
  let self := cached float32 in
  exists cm,
    causal_mask self = Some cm /\
    (@None Positions = None \/ Some some_mask <> None) /\
    exists e,
      forward tokens_1x1 (Some some_mask) None self = (self, Raise e) /\
      layers (fst (forward tokens_1x1 (Some some_mask) None self)) = layers self /\
      (is_ok (embedding (tok_embeddings self) tokens_1x1) = true ->
       exists msg, e = ValueError msg).
Proof.
  intros self. eexists. split; [reflexivity |]. split; [by left |].
  exact (rejected_forward_leaves_state tokens_1x1 (Some some_mask) None self _
           eq_refl (or_introl eq_refl)).
Defined.

Lemma setup_caches_builds_causal_mask_witness :
  let self := fresh float32 in
  (0 <= max_seq_len self)%Z /\
  Forall (fun l => snd (layer_setup_caches 1 float32 None (Some 16%Z) l) = Ok tt)
         (layers self) /\
  exists self',
    setup_caches 1 float32 None (Some 16%Z) self = (self', Ok tt) /\
    forall cs,
      causal_mask (run_calls cs self') = Some (tril (ones 16 16)) /\
      lower_triangular 16 (tril (ones 16 16)) /\
      max_seq_len (run_calls cs self') = max_seq_len self.
Proof.
  intros self.
  assert (0 <= max_seq_len self)%Z as HL by discriminate.
  assert (Forall (fun l => snd (layer_setup_caches 1 float32 None (Some 16%Z) l) = Ok tt)
                 (layers self)) as Hls by (repeat constructor).
  split; [exact HL |]. split; [exact Hls |].
  exact (setup_caches_builds_causal_mask 1 float32 None (Some 16%Z) self HL Hls).
Defined.



Lemma chunked_output_concat_witness :
  let h := hidden_1x12 bfloat16 in
  let self := chunked bfloat16 4 in
  wf_tensor3 h = true /\
  dtype3 h = dtype2 (tok_embeddings self) /\
  size2 h = cols2 (tok_embeddings self) /\
  (0 < num_output_chunks self)%Z /\
  (Z.of_nat (size1 h) mod num_output_chunks self = 0)%Z /\
  exists outs full,
    chunked_output h self = (self, Ok outs) /\
    linear h (tok_embeddings self) = Ok full /\
    project h (set_output_chunks 0 self)
      = (set_output_chunks 0 self, Ok (Logits (float full))) /\
    length outs = 4%nat /\
    Forall (fun o => shape3 o = (1, 3, 6)%nat) outs /\
    cat1 outs = Ok full.
Proof.
  intros h self. do 5 (split; [reflexivity |]).
  exact (chunked_output_concat h self eq_refl eq_refl eq_refl eq_refl eq_refl).
Defined.

(** C6, the claim as written fails: seq_len = 5 and 2 chunks.  The call
    returns, with a tensor over 3 positions and one over 2. *)
Lemma forward_non_divisible_returns :
  (tok_s tokens_1x5 mod 2 <> 0)%nat /\
  num_output_chunks (chunked bfloat16 2) = 2%Z /\
  exists self' outs,
    forward tokens_1x5 None None (chunked bfloat16 2)
      = (self', Ok (ChunkedLogits outs)) /\
    map shape3 outs = [(1, 3, 6); (1, 2, 6)]%nat.
Proof.
  split; [discriminate |]. split; [reflexivity |].
  eexists _, _. split; reflexivity.
Qed.

Lemma forward_chunks_any_length_witness :
  let self := chunked bfloat16 2 in
  exists self' h,
    shape_preserving (norm self) /\
    final_hidden_state tokens_1x5 None None self = (self', Ok h) /\
    dtype3 h = dtype2 (tok_embeddings self) /\
    (0 < num_output_chunks self)%Z /\
    exists outs n last,
      forward tokens_1x5 None None self = (self', Ok (ChunkedLogits outs)) /\
      map shape3 outs
        = map (fun len => (1, len, 6)%nat) (replicate (n - 1) 3%nat ++ [last]) /\
      (1 <= n <= 2)%nat /\ (last <= 3)%nat /\ ((n - 1) * 3 + last = 5)%nat /\
      (5 mod 2 <> 0 -> n < 2 \/ last < 3)%nat.
Proof.
  intros self. eexists _, _.
  split; [exact identity_norm_shape |]. split; [vm_compute; reflexivity |].
  split; [reflexivity |]. split; [reflexivity |].
  exact (@forward_chunks_any_length ZNumeric RecorderLayer recorder_contract
           tokens_1x5 None None self _ _ identity_norm_shape eq_refl eq_refl eq_refl).
Defined.

Lemma forward_logits_float32_witness :
  let self := cached bfloat16 in
  let input_pos := Some (Pos2D [[3%Z]]) in
  exists self' h,
    shape_preserving (norm self) /\
    final_hidden_state tokens_1x1 None input_pos self = (self', Ok h) /\
    dtype3 h = dtype2 (tok_embeddings self) /\
    num_output_chunks self = 0%Z /\
    exists full,
      linear h (tok_embeddings self) = Ok full /\
      forward tokens_1x1 None input_pos self = (self', Ok (Logits (float full))) /\
      dtype3 (float full) = float32 /\
      shape3 (float full) = (1, 1, 6)%nat.
Proof.
  intros self input_pos. eexists _, _.
  split; [exact identity_norm_shape |]. split; [vm_compute; reflexivity |].
  split; [reflexivity |]. split; [reflexivity |].
  exact (@forward_logits_float32 ZNumeric RecorderLayer recorder_contract
           tokens_1x1 None input_pos self _ _ identity_norm_shape eq_refl eq_refl eq_refl).
Defined.

(** C10, the claim as written fails: a float32 hidden state.  The chunks and
    the single tensor of the non-chunked branch have the same dtype. *)
Lemma chunked_output_float32_same_dtype :
  let h := hidden_1x12 float32 in
  exists outs full,
    chunked_output h (chunked float32 4) = (chunked float32 4, Ok outs) /\
    project h (fresh float32) = (fresh float32, Ok (Logits full)) /\
    length outs = 4%nat /\
    Forall (fun o => dtype3 o = dtype3 h /\ dtype3 o = dtype3 full) outs.
Proof.
  intros h. eexists _, _. split; [reflexivity |]. split; [reflexivity |].
  split; [reflexivity |]. repeat (constructor; [split; reflexivity |]). constructor.
Qed.

Lemma chunked_output_keeps_dtype_witness :
  let h := hidden_1x12 bfloat16 in
  let self := chunked bfloat16 4 in
  dtype3 h = dtype2 (tok_embeddings self) /\
  size2 h = cols2 (tok_embeddings self) /\
  (0 < num_output_chunks self)%Z /\
  exists outs full,
    chunked_output h self = (self, Ok outs) /\
    outs <> [] /\
    Forall (fun o => dtype3 o = dtype3 h) outs /\
    project h (set_output_chunks 0 self)
      = (set_output_chunks 0 self, Ok (Logits (float full))) /\
    dtype3 (float full) = float32 /\
    (Forall (fun o => dtype3 o <> dtype3 (float full)) outs <-> dtype3 h <> float32).
Proof.
  intros h self. do 3 (split; [reflexivity |]).
  exact (chunked_output_keeps_dtype h self eq_refl eq_refl eq_refl).
Defined.

(** * The further properties on concrete inputs *)

Lemma forward_layer_failure_witness :
  let self := Bounded.second_layer_full in
  let body := fun h => @layer_forward ZNumeric Bounded.SlotsLayer h None None in
  let e := RuntimeError "cache is full" in
  exists h h1,
    embedding (tok_embeddings self) tokens_1x1 = Ok h /\
    resolve_mask None None self = (self, Ok None) /\
    layers self = [Bounded.roomy] ++ Bounded.full :: [Bounded.roomy] /\
    for_layers body (scale_embeddings self h) [Bounded.roomy]
      = ([Bounded.roomy_used], Ok h1) /\
    body h1 Bounded.full = (Bounded.full, Raise e) /\
    forward tokens_1x1 None None self
      = (set_layers ([Bounded.roomy_used] ++ Bounded.full :: [Bounded.roomy]) self,
         Raise e).
Proof.
  intros self body e. eexists _, _.
  split; [vm_compute; reflexivity |]. split; [reflexivity |]. split; [reflexivity |].
  split; [vm_compute; reflexivity |]. split; [reflexivity |].
  exact (@forward_layer_failure ZNumeric Bounded.SlotsLayer tokens_1x1 None None self
           _ _ None [Bounded.roomy] [Bounded.roomy_used] Bounded.full Bounded.full
           [Bounded.roomy] e eq_refl eq_refl eq_refl eq_refl eq_refl).
Defined.

Lemma forward_without_cache_witness :
  let self := fresh float32 in
  exists h,
    causal_mask self = None /\
    embedding (tok_embeddings self) tokens_1x1 = Ok h /\
    forward tokens_1x1 (Some some_mask) None self =
      (h' ← run_layers h (Some some_mask) None; project h') self /\
    exists ls r,
      layers_called_with (Some some_mask) None (scale_embeddings self h) (layers self)
        ls r /\
      forward tokens_1x1 (Some some_mask) None self = after_layers ls r self.
Proof.
  intros self. eexists. split; [reflexivity |]. split; [vm_compute; reflexivity |].
  exact (forward_without_cache tokens_1x1 (Some some_mask) None self _ eq_refl eq_refl).
Defined.

(** What the layers of the concrete decoder recorded in that call. *)
Example forward_without_cache_recorded :
  map rec_calls (layers (fst (forward tokens_1x1 (Some some_mask) None (fresh float32))))
  = replicate 2 [(Some some_mask, None)].
Proof. by vm_compute. Qed.

Lemma forward_value_error_iff_tokens_valid_witness :
  let self := cached float32 in
  exists cm,
    causal_mask self = Some cm /\
    is_ok (embedding (tok_embeddings self) Edge.tokens_unknown) = false /\
    exists msg,
      forward Edge.tokens_unknown None None self = (self, Raise (IndexError msg)).
Proof.
  intros self. eexists. split; [reflexivity |]. split; [reflexivity |].
  exact (proj2 (forward_value_error_iff_tokens_valid Edge.tokens_unknown None self _
                  eq_refl) eq_refl).
Defined.

Lemma forward_nonpositive_chunks_witness :
  (-3 <= 0)%Z /\
  snd (forward tokens_1x5 None None (set_output_chunks (-3) (fresh bfloat16)))
  = snd (forward tokens_1x5 None None (set_output_chunks 0 (fresh bfloat16))).
Proof.
  split; [discriminate |].
  exact (forward_nonpositive_chunks (-3) tokens_1x5 None None (fresh bfloat16)
           ltac:(discriminate)).
Defined.

Lemma forward_positions_wrap_witness :
  let self := cached float32 in
  let input_pos := Pos1D [(-1)%Z] in
  exists h,
    mask_built self /\
    embedding (tok_embeddings self) tokens_1x1 = Ok h /\
    Forall (fun p => (- max_seq_len self <= p < max_seq_len self)%Z)
           (positions_flat input_pos) /\
    exists m,
      forward tokens_1x1 None (Some input_pos) self =
        (h' ← run_layers h (Some m) (Some input_pos); project h') self /\
      Forall2 (fun p row =>
                 length row = 16%nat /\
                 forall j, (j < 16)%nat ->
                   row !! j = Some (bool_decide (j <= Z.to_nat (p mod 16))%nat))
              (positions_flat input_pos) (mask_rows m).
Proof.
  intros self input_pos.
  assert (mask_built self) as Hb by reflexivity.
  assert (Forall (fun p => (- max_seq_len self <= p < max_seq_len self)%Z)
                 (positions_flat input_pos))
    as Hpos by (constructor; [split; [discriminate | reflexivity] | constructor]).
  eexists. split; [exact Hb |]. split; [vm_compute; reflexivity |]. split; [exact Hpos |].
  exact (forward_positions_wrap tokens_1x1 input_pos self _ Hb eq_refl Hpos).
Defined.

Lemma forward_position_out_of_bounds_witness :
  let self := cached float32 in
  let input_pos := Pos1D [16%Z] in
  exists cm h,
    causal_mask self = Some cm /\
    embedding (tok_embeddings self) tokens_1x1 = Ok h /\
    Exists (fun p => (p < - Z.of_nat (length cm) \/ Z.of_nat (length cm) <= p)%Z)
           (positions_flat input_pos) /\
    exists msg,
      forward tokens_1x1 None (Some input_pos) self = (self, Raise (IndexError msg)).
Proof.
  intros self input_pos.
  assert (Exists (fun p => (p < - Z.of_nat 16 \/ Z.of_nat 16 <= p)%Z)
                 (positions_flat input_pos))
    as Hbad by (constructor; right; discriminate).
  eexists _, _. split; [reflexivity |]. split; [vm_compute; reflexivity |].
  split; [exact Hbad |].
  exact (forward_position_out_of_bounds tokens_1x1 input_pos self _ _ eq_refl eq_refl Hbad).
Defined.

Lemma resolved_mask_shape_witness :
  let self := cached float32 in
  let input_pos := Pos1D [0; 1; 2]%Z in
  mask_built self /\
  Forall (fun p => (- max_seq_len self <= p < max_seq_len self)%Z)
         (positions_flat input_pos) /\
  exists rows,
    resolve_mask None (Some input_pos) self = (self, Ok (Some (Bool3D [rows]))) /\
    length rows = 3%nat /\
    Forall (fun row => length row = 16%nat) rows.
Proof.
  intros self input_pos.
  assert (mask_built self) as Hb by reflexivity.
  assert (Forall (fun p => (- max_seq_len self <= p < max_seq_len self)%Z)
                 (positions_flat input_pos))
    as Hpos by (repeat (constructor; [split; [discriminate | reflexivity] |]); constructor).
  split; [exact Hb |]. split; [exact Hpos |].
  exact (resolved_mask_shape input_pos self Hb Hpos).
Defined.

Lemma setup_caches_sets_up_every_layer_witness :
  let self := fresh float32 in
  exists self',
    setup_caches 1 float32 None (Some 16%Z) self = (self', Ok tt) /\
    layers self'
      = map (fun l => fst (layer_setup_caches 1 float32 None (Some 16%Z) l)) (layers self).
Proof.
  intros self. eexists. split; [vm_compute; reflexivity |].
  exact (setup_caches_sets_up_every_layer 1 float32 None (Some 16%Z) self _ eq_refl).
Defined.

Lemma setup_caches_layer_failure_witness :
  let self := fresh float32 in
  let e := TypeError "decoder_max_seq_len is None" in
  layers self = [] ++ fresh_layer :: [fresh_layer] /\
  snd (layer_setup_caches 1 float32 (Some 8%Z) None fresh_layer) = Raise e /\
  let self' := fst (setup_caches 1 float32 (Some 8%Z) None self) in
  snd (setup_caches 1 float32 (Some 8%Z) None self) = Raise e /\
  layers self' = [fresh_layer; fresh_layer] /\
  causal_mask self' = None /\
  encoder_max_seq_len self' = Some 8%Z /\
  decoder_max_seq_len self' = None.
Proof.
  intros self e. split; [reflexivity |]. split; [reflexivity |].
  exact (setup_caches_layer_failure 1 float32 (Some 8%Z) None self [] fresh_layer
           [fresh_layer] e eq_refl (Forall_nil_2 _) eq_refl).
Defined.

Lemma setup_caches_negative_max_seq_len_witness :
  let self := Edge.negative_length in
  (max_seq_len self < 0)%Z /\
  Forall (fun l => snd (layer_setup_caches 1 float32 None (Some 16%Z) l) = Ok tt)
         (layers self) /\
  let self' := fst (setup_caches 1 float32 None (Some 16%Z) self) in
  (exists msg,
      snd (setup_caches 1 float32 None (Some 16%Z) self) = Raise (RuntimeError msg)) /\
  map rec_enabled (layers self') = [true; true] /\
  causal_mask self' = None.
Proof.
  intros self.
  assert (max_seq_len self < 0)%Z as HL by reflexivity.
  assert (Forall (fun l => snd (layer_setup_caches 1 float32 None (Some 16%Z) l) = Ok tt)
                 (layers self)) as Hls by (repeat constructor).
  split; [exact HL |]. split; [exact Hls |].
  destruct (setup_caches_negative_max_seq_len 1 float32 None (Some 16%Z) self HL Hls)
    as (Hr & Hl & Hcm).
  split; [exact Hr |]. split; [| exact Hcm].
  rewrite Hl. reflexivity.
Defined.

Lemma caches_are_setup_without_layers_witness :
  (0 <= 0)%Z /\
  layers Edge.no_layers = [] /\
  exists msg, caches_are_setup Edge.no_layers = (Edge.no_layers, Raise (IndexError msg)).
Proof.
  split; [discriminate |].
  exact (caches_are_setup_without_layers (weight float32 6 2) fresh_layer 0 16 4 2
           identity_norm false ltac:(discriminate)).
Defined.

Lemma chunked_output_needs_chunks_witness :
  let self := fresh float32 in
  (num_output_chunks self <= 0)%Z /\
  exists msg,
    chunked_output (hidden_1x12 float32) self = (self, Raise (RuntimeError msg)).
Proof.
  intros self.
  assert (num_output_chunks self <= 0)%Z as HC by discriminate.
  split; [exact HC |].
  exact (chunked_output_needs_chunks (hidden_1x12 float32) self HC).
Defined.

Lemma causal_mask_is_never_cleared_witness :
  let cs := [call_forward tokens_1x1 None None;
             call_setup_caches 1 float32 None None;
             call_set_num_output_chunks 4;
             call_caches_are_setup] in
  causal_mask (cached float32) <> None /\
  causal_mask (run_calls cs (cached float32)) <> None.
Proof.
  intros cs.
  assert (causal_mask (cached float32) <> None) as Hcm by discriminate.
  split; [exact Hcm |].
  exact (causal_mask_is_never_cleared cs (cached float32) Hcm).
Defined.

Lemma chunked_output_concat_any_count_witness :
  let h := Edge.hidden_1x5 bfloat16 in
  let self := chunked bfloat16 2 in
  wf_tensor3 h = true /\
  dtype3 h = dtype2 (tok_embeddings self) /\
  size2 h = cols2 (tok_embeddings self) /\
  (0 < num_output_chunks self)%Z /\
  (size1 h mod 2 <> 0)%nat /\
  exists outs full,
    chunked_output h self = (self, Ok outs) /\
    linear h (tok_embeddings self) = Ok full /\
    cat1 outs = Ok full.
Proof.
  intros h self. do 4 (split; [reflexivity |]). split; [discriminate |].
  exact (chunked_output_concat_any_count h self eq_refl eq_refl eq_refl eq_refl).
Defined.

Lemma forward_chunked_matches_unchunked_witness :
  let self := fresh bfloat16 in
  exists self' h,
    final_hidden_state tokens_1x5 None None self = (self', Ok h) /\
    wf_tensor3 h = true /\
    dtype3 h = dtype2 (tok_embeddings self) /\
    size2 h = cols2 (tok_embeddings self) /\
    (0 < 2)%Z /\
    exists outs full,
      forward tokens_1x5 None None (set_output_chunks 2 self)
        = (set_output_chunks 2 self', Ok (ChunkedLogits outs)) /\
      forward tokens_1x5 None None (set_output_chunks 0 self)
        = (set_output_chunks 0 self', Ok (Logits (float full))) /\
      cat1 outs = Ok full.
Proof.
  intros self. eexists _, _. split; [vm_compute; reflexivity |].
  do 4 (split; [reflexivity |]).
  exact (@forward_chunked_matches_unchunked ZNumeric RecorderLayer 2 tokens_1x5 None None
           self _ _ eq_refl eq_refl eq_refl eq_refl eq_refl).
Defined.

Lemma compile_model_compiles_attention_layers_witness :
  let w := Compile.fusion_world in
  let w' := Compile.compile_model Compile.fusion_model true w in
  Compile.heap w !! 2%nat = Some (Compile.mkModule Compile.TransformerSelfAttentionLayer None) /\
  exists k,
    Compile.heap w' !! 2%nat
      = Some (Compile.mkModule Compile.TransformerSelfAttentionLayer
                (Some (Compile.mkCompiled "aot_eager" k))) /\
    (Compile.compiled_count w <= k < Compile.compiled_count w')%nat.
Proof.
  intros w w'. split; [reflexivity |].
  exact (compile_model_compiles_attention_layers Compile.fusion_model true w 2%nat _ eq_refl).
Defined.

Lemma compile_model_fusion_only_decoder_witness :
  let w := Compile.fusion_world in
  (6%nat ∉ [1; 2; 3; 4]%nat) /\
  Compile.heap (Compile.compile_model Compile.fusion_model true w) !! 6%nat
    = Some (Compile.mkModule Compile.TransformerSelfAttentionLayer
              (Some (Compile.mkCompiled "eager" 0))).
Proof.
  intros w.
  assert (6%nat ∉ [1; 2; 3; 4]%nat) as Hid.
  { intros Hin. repeat (apply elem_of_cons in Hin as [Hin | Hin]; [discriminate |]).
    by apply elem_of_nil in Hin. }
  split; [exact Hid |].
  exact (eq_trans
           (compile_model_fusion_only_decoder [0; 1; 2; 3; 4; 5; 6]%nat
              (Compile.TransformerDecoder [1; 2; 3; 4]%nat) true w 6%nat Hid)
           eq_refl).
Defined.

Lemma compile_model_twice_witness :
  let w := Compile.fusion_world in
  let w1 := Compile.compile_model Compile.fusion_model true w in
  let w2 := Compile.compile_model Compile.fusion_model false w1 in
  Compile.heap w !! 4%nat = Some (Compile.mkModule Compile.TransformerCrossAttentionLayer None) /\
  exists k1 k2,
    Compile.heap w1 !! 4%nat
      = Some (Compile.mkModule Compile.TransformerCrossAttentionLayer
                (Some (Compile.mkCompiled "aot_eager" k1))) /\
    Compile.heap w2 !! 4%nat
      = Some (Compile.mkModule Compile.TransformerCrossAttentionLayer
                (Some (Compile.mkCompiled "aot_eager" k2))) /\
    (k1 < k2)%nat.
Proof.
  intros w w1 w2. split; [reflexivity |].
  exact (compile_model_twice Compile.fusion_model true false w 4%nat _ eq_refl).
Defined.

(** The two calls on the concrete fusion model: the callables are numbered
    in the order in which the loop, that goes over the modules from the last
    to the first, builds them. *)
Example compile_model_twice_serials :
  let w1 := Compile.compile_model Compile.fusion_model true Compile.fusion_world in
  let w2 := Compile.compile_model Compile.fusion_model false w1 in
  let serial w id :=
    Compile.callable_serial <$> (Compile.heap w !! id ≫= Compile.compiled_call_impl) in
  map (serial w1) [2; 4; 6]%nat = [Some 2; Some 1; Some 0]%nat /\
  map (serial w2) [2; 4; 6]%nat = [Some 4; Some 3; Some 0]%nat.
Proof. by vm_compute. Qed.
